(** * The release tool of the tag-translation editor

    A shallow embedding of [src/tool/commands/create-release/index.ts]:
    the source checker ([runSourceCheck]), the logger used under GitHub
    Actions ([ActionLogger]) and the packager ([save], [createRelease]),
    followed by the properties proved about them.

    Conventions of the embedding.
    - A JavaScript string is a [string]; one character of the model stands
      for one UTF-16 code unit, so [String.length] is the [length] property.
    - A JavaScript number that counts something is a [nat].
    - An object used as a dictionary whose keys are iterated ([db.data]) is
      an association list in property order; its keys are distinct.
    - Objects with methods are records; a module gives each record the name
      space its class has in the source.
    - Functions of other packages and of modules that are not part of the
      sources at hand are fields of the classes [Ehentai], [Terminal],
      [Numbers], [ActionUtils] and [Libraries]. *)

From Stdlib Require Import String Ascii List ZArith Lia Bool DecimalString.
From Stdlib.Strings Require Import Byte.
From stdpp Require Import base gmap strings list.
Import ListNotations.
Open Scope string_scope.

(** ** Data model *)

Definition NamespaceName := string.
Definition RawTag := string.

(** The five representation kinds ([TagType]); [types] of [createRelease]
    lists them in the order of the source. *)
Inductive TagType := full | raw | text | html | ast.

Definition TagType_name (type : TagType) : string :=
  match type with
  | full => "full"
  | raw => "raw"
  | text => "text"
  | html => "html"
  | ast => "ast"
  end.

Definition types : list TagType := [full; raw; text; html; ast].

(** [keyof Logger]: the three severities. *)
Inductive Level := info | warn | error.

(** The order info < warn < error of the specification. *)
Definition Level_rank (l : Level) : nat :=
  match l with
  | info => 0
  | warn => 1
  | error => 2
  end.

Definition Level_le (a b : Level) : Prop := Level_rank a <= Level_rank b.

Module TagRecord.
(** A record of the database; the checker only hands it to [Context].  The
    namespace that owns the record is referred to by its name. *)
Record t := { namespace : NamespaceName }.
End TagRecord.

Module TagLine.
Record t := { record : TagRecord.t; line : nat }.
End TagLine.

Module Context.
(** Modelled from the spec: class [Context] of shared/markdown is not among
    the sources.  The specification describes it as a diagnostic handle
    bound to (namespace, raw tag text, source line); the release tool reads
    [context.namespace.name], [context.raw] (which may be undefined) and
    [context.line], and assigns [line] after construction. *)
Record t := { namespace : NamespaceName; raw : option RawTag; line : option nat }.

Definition new (record : TagRecord.t) (raw : RawTag) : t :=
  {| namespace := TagRecord.namespace record; raw := Some raw; line := None |}.

Definition set_line (c : t) (l : nat) : t :=
  {| namespace := namespace c; raw := raw c; line := Some l |}.
End Context.

Module NamespaceDatabase.
(** One namespace of the database: [name], [size] and the pairs that the
    method [raw()] yields, in iteration order. *)
Record t := { name : NamespaceName; size : nat; raw : list (RawTag * TagLine.t) }.
End NamespaceDatabase.

Module Database.
(** [db.data] in property order, [db.repoPath] and the method [db.render],
    which may reject ([None]). *)
Record t (RepoData : Type) := {
  repoPath : string;
  data : list (NamespaceName * NamespaceDatabase.t);
  render : TagType -> option RepoData
}.
Arguments repoPath {RepoData} _.
Arguments data {RepoData} _.
Arguments render {RepoData} _ _.


End Database.

(** ** Interfaces of the surrounding modules and packages *)

(** shared/ehentai: the canonical tag source.  [loadMasterTags] is [None]
    when the load is rejected; [normalizeTag ns tag exact] is the pair
    [[namespace, tag]] of the canonical match, or [None] for [undefined]. *)
Class Ehentai := {
  MasterTag : Type;
  loadMasterTags : option (list MasterTag);
  normalizeTag : NamespaceName -> RawTag -> bool -> option (NamespaceName * RawTag)
}.

(** cli-color: the escape sequence [clc.move.lineBegin]. *)
Class Terminal := { lineBegin : string }.

(** Floating-point computations of the progress line, left abstract:
    [sizeWidthOf size] is [Math.floor(Math.log10(size)) + 1] as [padStart]
    receives it, and [toFixed3 count size] is
    [((count / size) * 100).toFixed(3)].  Neither throws, whatever the
    numbers. *)
Class Numbers := {
  sizeWidthOf : nat -> nat;
  toFixed3 : nat -> nat -> string
}.

(** tool/utils: [action.isAction()] and [action.ExitCode.Failure]. *)
Class ActionUtils := {
  isAction : bool;
  ExitCode_Failure : Z
}.

(** [process.stderr.isTTY] and [clc.windowSize.width]. *)
Module Stderr.
Record t := { isTTY : bool; width : Z }.
End Stderr.

(** ** Strings *)

Definition LF : string := String (ascii_of_nat 10) EmptyString.

(** [n.toString()] for a count. *)
Definition toString (n : nat) : string := NilZero.string_of_uint (Nat.to_uint n).

Fixpoint spaces (n : nat) : string :=
  match n with
  | O => EmptyString
  | S k => String " " (spaces k)
  end.

(** [s.padEnd(n)] and [s.padStart(n)] with the default filler. *)
Definition padEnd (s : string) (n : nat) : string := s ++ spaces (n - String.length s).
Definition padStart (s : string) (n : nat) : string := spaces (n - String.length s) ++ s.

(** ** The source checker *)

(** What the checker does to the outside, in program order.  The checker
    reads nothing back from the console, from the standard error or from
    the logger, whose methods return nothing; a call to the logger is taken
    to return, as [ActionLogger.log] does. *)
Inductive Event :=
| console_log (s : string)
| stderr_write (s : string)
| logger_call (logger : Level) (context : Context.t) (message : string).

Inductive Completion := Returned | Rejected.

Section Checker.
Context `{Ehentai} `{Terminal} `{Numbers}.

Definition clearLine (err : Stderr.t) : list Event :=
  [stderr_write (padEnd EmptyString (Z.to_nat (Stderr.width err - 1)) ++ lineBegin)].

Definition showProgress (err : Stderr.t) : bool :=
  Stderr.isTTY err && (0 <? Stderr.width err)%Z.

(** Line 73: the total that the progress line shows. *)
Definition totalSize (data : list (NamespaceName * NamespaceDatabase.t)) : nat :=
  fold_left
    (fun sum ns => sum + (if String.eqb (NamespaceDatabase.name ns) "rows" then 0
                          else NamespaceDatabase.size ns))
    (map snd data) 0.

(** The closure [context] of the loop body. *)
Definition context (tag : RawTag) (tagLine : TagLine.t) : Context.t :=
  let c := Context.new (TagLine.record tagLine) tag in
  Context.set_line c (TagLine.line tagLine).

(** Lines 83-90. *)
Definition progress (err : Stderr.t) (size sizeWidth count : nat)
    (ns : NamespaceName) (tag : RawTag) : list Event :=
  if showProgress err then
    (clearLine err ++
     [stderr_write
        (padEnd ("[" ++ padStart (toString count) sizeWidth ++ "/" ++ toString size ++ "] "
                 ++ ns ++ ":" ++ tag)
                (Z.to_nat (Stderr.width err - 10))
         ++ toFixed3 count size ++ "%");
      stderr_write lineBegin])%list
  else [].

Definition clearIfProgress (err : Stderr.t) : list Event :=
  if showProgress err then clearLine err else [].

(** Lines 83-119: the loop body for one pair of [nsDb.raw()], with [count]
    already incremented. *)
Definition checkTag (err : Stderr.t) (size sizeWidth : nat) (ns : NamespaceName)
    (count : nat) (entry : RawTag * TagLine.t) : list Event :=
  let tag := fst entry in
  let tagLine := snd entry in
  (progress err size sizeWidth count ns tag ++
   match normalizeTag ns tag true with
   | None =>
       if (String.length tag <=? 2)%nat then
         clearIfProgress err ++
         [logger_call info (context tag tagLine)
            "Tag is too short, you should check it manually."]
       else
         clearIfProgress err ++
         [logger_call warn (context tag tagLine) "Tag not found."]
   | Some normTag =>
       if negb (String.eqb (snd normTag) tag) then
         clearIfProgress err ++
         [logger_call warn (context tag tagLine)
            ("Tag renamed: => " ++ fst normTag ++ ":" ++ snd normTag)%string]
       else []
   end)%list.

(** The inner loop over [nsDb.raw()]; the state is [count] and the events
    so far. *)
Definition checkNamespace (err : Stderr.t) (size sizeWidth : nat) (ns : NamespaceName)
    (tags : list (RawTag * TagLine.t)) (st : nat * list Event) : nat * list Event :=
  fold_left
    (fun st entry =>
       let count := S (fst st) in
       (count, (snd st ++ checkTag err size sizeWidth ns count entry)%list))
    tags st.

(** The outer loop over the keys of [db.data]; [db.data[ns]] is the value
    stored under the key. *)
Definition checkData (err : Stderr.t) (size sizeWidth : nat)
    (data : list (NamespaceName * NamespaceDatabase.t)) (st : nat * list Event)
    : nat * list Event :=
  fold_left
    (fun st e =>
       let ns := fst e in
       if String.eqb ns "rows" then st
       else checkNamespace err size sizeWidth ns (NamespaceDatabase.raw (snd e)) st)
    data st.

Definition runSourceCheck {RepoData : Type} (err : Stderr.t) (db : Database.t RepoData)
    : list Event * Completion :=
  let out := [console_log (LF ++ "Checking tags from source..." ++ LF)] in
  match loadMasterTags with
  | None => (out, Rejected)
  | Some t =>
      let out := (out ++ [console_log ("Preloaded " ++ toString (length t)
                                        ++ " tags from tag group tool.")%string])%list in
      let size := totalSize (Database.data db) in
      let sizeWidth := sizeWidthOf size in
      let st := checkData err size sizeWidth (Database.data db) (0, out) in
      ((snd st ++ [console_log " "])%list, Returned)
  end.

End Checker.

(** The calls to the logger among the events, in order. *)
Definition Finding : Type := Level * Context.t * string.

Definition finding_of (e : Event) : list Finding :=
  match e with
  | logger_call l c m => [(l, c, m)]
  | _ => []
  end.

Definition findings (out : list Event) : list Finding := flat_map finding_of out.

(** ** The process *)

(** The annotation functions of @actions/core. *)
Module core.
Inductive AnnotationFn := notice | warning | error.
End core.

(** What reaches the standard output: lines of [console.log] and the
    workflow commands of @actions/core. *)
Inductive Output :=
| out_line (s : string)
| out_annotation (fn : core.AnnotationFn) (message : string) (file : string)
    (startLine : option nat)
| out_startGroup (name : string)
| out_endGroup.

(** A file holds the string or the bytes it was written from. *)
Inductive Content := Text (s : string) | Bytes (b : list Byte.byte).

Module Process.
(** The state of the process and of the file system it sees.  Paths are
    absolute; a file is keyed by its directory and its name.  [faults]
    decides the outcome of the file operations still to come, one entry an
    operation: [true] makes the operation fail. *)
Record t := {
  cwd : string;
  dirs : gset string;
  files : gmap (string * string) Content;
  faults : list bool;
  stdout : list Output;
  stderr : list string;
  exitCode : option Z
}.

Definition set_cwd (d : string) (p : t) : t :=
  {| cwd := d; dirs := dirs p; files := files p; faults := faults p;
     stdout := stdout p; stderr := stderr p; exitCode := exitCode p |}.

Definition set_dirs (ds : gset string) (p : t) : t :=
  {| cwd := cwd p; dirs := ds; files := files p; faults := faults p;
     stdout := stdout p; stderr := stderr p; exitCode := exitCode p |}.

Definition set_files (fs : gmap (string * string) Content) (p : t) : t :=
  {| cwd := cwd p; dirs := dirs p; files := fs; faults := faults p;
     stdout := stdout p; stderr := stderr p; exitCode := exitCode p |}.

Definition set_faults (fl : list bool) (p : t) : t :=
  {| cwd := cwd p; dirs := dirs p; files := files p; faults := fl;
     stdout := stdout p; stderr := stderr p; exitCode := exitCode p |}.

Definition print (o : Output) (p : t) : t :=
  {| cwd := cwd p; dirs := dirs p; files := files p; faults := faults p;
     stdout := (stdout p ++ [o])%list; stderr := stderr p; exitCode := exitCode p |}.

Definition eprint (s : string) (p : t) : t :=
  {| cwd := cwd p; dirs := dirs p; files := files p; faults := faults p;
     stdout := stdout p; stderr := (stderr p ++ [s])%list; exitCode := exitCode p |}.

Definition set_exitCode (c : option Z) (p : t) : t :=
  {| cwd := cwd p; dirs := dirs p; files := files p; faults := faults p;
     stdout := stdout p; stderr := stderr p; exitCode := c |}.

(** The death of the process of an error that nothing handles: node writes
    the trace of the error to the standard error and exits with status 1,
    whatever [process.exitCode] was. *)
Definition die (trace : string) (p : t) : t := set_exitCode (Some 1%Z) (eprint trace p).

(** The process with what it wrote to the standard error forgotten. *)
Definition without_stderr (p : t) : t :=
  {| cwd := cwd p; dirs := dirs p; files := files p; faults := faults p;
     stdout := stdout p; stderr := []; exitCode := exitCode p |}.
End Process.

(** ** The logger of GitHub Actions *)

Module Flags.
(** [Record<keyof Logger, boolean>]. *)
Record t := { info : bool; warn : bool; error : bool }.

Definition set_info (b : bool) (r : t) : t := {| info := b; warn := warn r; error := error r |}.
Definition set_warn (b : bool) (r : t) : t := {| info := info r; warn := b; error := error r |}.
Definition set_error (b : bool) (r : t) : t := {| info := info r; warn := warn r; error := b |}.
End Flags.

Definition Flags_get (r : Flags.t) (logger : Level) : bool :=
  match logger with
  | info => Flags.info r
  | warn => Flags.warn r
  | error => Flags.error r
  end.

Module ActionLogger.
Record t := { failed : Level; setFailed : Flags.t }.

(** The constructor.  The property initialiser of [setFailed] runs first;
    the [switch] falls through from the selected case to the last one.  The
    argument is [None] when the caller passes none. *)
Definition new (failed : option Level) : t :=
  let failed := default error failed in
  let setFailed := {| Flags.info := false; Flags.warn := false; Flags.error := true |} in
  let case_error := fun sf => Flags.set_error true sf in
  let case_warn := fun sf => case_error (Flags.set_warn true sf) in
  let case_info := fun sf => case_warn (Flags.set_info true sf) in
  {| failed := failed;
     setFailed := match failed with
                  | info => case_info setFailed
                  | warn => case_warn setFailed
                  | error => case_error setFailed
                  end |}.

Definition buildMessage (logger : Level) (context : Context.t) (message : string) : string :=
  Context.namespace context ++ ":" ++ default "<unknown raw>" (Context.raw context)
  ++ ": " ++ message.

(** The property [map]. *)
Definition map (logger : Level) : core.AnnotationFn :=
  match logger with
  | info => core.notice
  | warn => core.warning
  | error => core.error
  end.

Section Log.
Context `{ActionUtils}.

Definition log (this : t) (logger : Level) (context : Context.t) (message : string)
    (p : Process.t) : Process.t :=
  let p := Process.print
             (out_annotation (map logger) (buildMessage logger context message)
                ("database/" ++ Context.namespace context ++ ".md")
                (Context.line context)) p in
  if Flags_get (setFailed this) logger
  then Process.set_exitCode (Some ExitCode_Failure) p
  else p.

End Log.
End ActionLogger.

(** Modelled from the spec: the base class [Logger] of shared/markdown is not
    among the sources.  The specification gives it the three capabilities
    info, warn and error; each is taken to hand its arguments to the
    protected method [log] under its own name, which is what the signature
    of [ActionLogger.log] expects. *)
Class Logger (L : Type) := {
  Logger_info : L -> Context.t -> string -> Process.t -> Process.t;
  Logger_warn : L -> Context.t -> string -> Process.t -> Process.t;
  Logger_error : L -> Context.t -> string -> Process.t -> Process.t
}.

#[export] Instance ActionLogger_Logger `{ActionUtils} : Logger ActionLogger.t := {
  Logger_info this := ActionLogger.log this info;
  Logger_warn this := ActionLogger.log this warn;
  Logger_error this := ActionLogger.log this error
}.

(** One event of the checker, carried out in a process whose [db.logger] is
    [this]. *)
Definition perform {L : Type} `{Logger L} (this : L) (e : Event) (p : Process.t) : Process.t :=
  match e with
  | console_log s => Process.print (out_line s) p
  | stderr_write s => Process.eprint s p
  | logger_call info c m => Logger_info this c m p
  | logger_call warn c m => Logger_warn this c m p
  | logger_call error c m => Logger_error this c m p
  end.

Definition performAll {L : Type} `{Logger L} (this : L) (out : list Event) (p : Process.t)
    : Process.t :=
  fold_left (fun p e => perform this e p) out p.

(** Line 178: the logger handed to [Database.create]. *)
Definition commandLogger `{ActionUtils} (strict : bool) : option ActionLogger.t :=
  if isAction then Some (ActionLogger.new (Some (if strict then warn else error)))
  else None.

(** ** The packager *)

(** JSON.stringify, pako's [gzip], [Buffer.from(gz).toString('base64')], the
    text exported by ./pako (the source of the decompressor, a file that is
    not among the sources) and the number of bytes that a string takes in a
    file. *)
Class Libraries := {
  RepoData : Type;
  JSON_stringify : RepoData -> string;
  gzip : string -> list Byte.byte;
  base64 : list Byte.byte -> string;
  pako : string;
  byteLength : string -> nat
}.

Inductive Error :=
| EIO
| ENOENT (path : string)
| RenderRejected (type : TagType)
| TypeError
| Unhandled (e : Error).

(** Asynchronous code that may throw: the process after the call, with the
    value returned or the error thrown.  [Throw (Unhandled e) p] is no
    rejection that a caller receives: an 'error' event [e] found no listener
    and the process has died of it, in the state [p]. *)
Inductive Result (A : Type) :=
| Ok (a : A) (p : Process.t)
| Throw (e : Error) (p : Process.t).
Arguments Ok {A} a p.
Arguments Throw {A} e p.

Definition M (A : Type) : Type := Process.t -> Result A.

Definition ret {A : Type} (a : A) : M A := fun p => Ok a p.

Definition throw {A : Type} (e : Error) : M A := fun p => Throw e p.

Definition bind {A B : Type} (m : M A) (f : A -> M B) : M B :=
  fun p =>
    match m p with
    | Ok a p' => f a p'
    | Throw e p' => Throw e p'
    end.

Declare Scope io_scope.
Delimit Scope io_scope with io.
Notation "'let*' x ':=' m 'in' k" := (bind m (fun x => k))
  (at level 10, x name, m at level 100, k at level 200) : io_scope.
Notation "m ';;' k" := (bind m (fun _ => k))
  (at level 100, k at level 200, right associativity) : io_scope.
Open Scope io_scope.

(** The next file operation fails when the head of [faults] says so. *)
Definition fault : M unit :=
  fun p =>
    match Process.faults p with
    | [] => Ok tt p
    | true :: fl => Throw EIO (Process.set_faults fl p)
    | false :: fl => Ok tt (Process.set_faults fl p)
    end.

(** What node prints when it dies of an 'error' event without listener; the
    one line stands for the whole trace. *)
Definition unhandled_trace : string := "Unhandled 'error' event".

(** The next operation of a stream fails when the head of [faults] says so.
    [save] gives its stream no listener for 'error' (lines 28-39), so the
    failure is an unhandled 'error' event: the process dies, and the promise
    that [save] awaits rejects into a process that is no more. *)
Definition stream_fault : M unit :=
  fun p =>
    match Process.faults p with
    | [] => Ok tt p
    | true :: fl => Throw (Unhandled EIO) (Process.die unhandled_trace (Process.set_faults fl p))
    | false :: fl => Ok tt (Process.set_faults fl p)
    end.

Definition modify (f : Process.t -> Process.t) : M unit := fun p => Ok tt (f p).

Module console.
Definition log (s : string) : M unit := modify (Process.print (out_line s)).
End console.

Module action.
Definition startGroup (name : string) : M unit := modify (Process.print (out_startGroup name)).
Definition endGroup : M unit := modify (Process.print out_endGroup).
End action.

Module process.
Definition cwd : M string := fun p => Ok (Process.cwd p) p.

(** [process.chdir] throws when the directory does not exist. *)
Definition chdir (directory : string) : M unit :=
  fun p =>
    if decide (directory ∈ Process.dirs p)
    then Ok tt (Process.set_cwd directory p)
    else Throw (ENOENT directory) p.
End process.

Module WriteStream.
(** The stream of [fs.createWriteStream]: the file it writes to. *)
Record t := { dir : string; path : string }.

(** [jsonp.write(data, callback)] as the promise that [write] of [save]
    makes of it: the chunk is appended to the file.  A write that fails
    kills the process, see [stream_fault]. *)
Definition write (s : t) (chunk : string) : M unit :=
  stream_fault;;
  modify (fun p =>
    let old := match Process.files p !! (dir s, path s) with
               | Some (Text old) => old
               | _ => EmptyString
               end in
    Process.set_files (<[(dir s, path s) := Text (old ++ chunk)]> (Process.files p)) p).

(** [promisify(jsonp.end.bind(jsonp))()]; a failure to flush or close is an
    'error' event of the stream as well. *)
Definition end_ (s : t) : M unit := stream_fault.
End WriteStream.

Module fs.
Definition writeFile (file : string) (data : Content) : M unit :=
  fault;;
  modify (fun p =>
    Process.set_files (<[(Process.cwd p, file) := data]> (Process.files p)) p).

Definition ensureDir (directory : string) : M unit :=
  fault;;
  modify (fun p => Process.set_dirs ({[directory]} ∪ Process.dirs p) p).

(** The stream opens its file with flag 'w': the file is created or emptied. *)
Definition createWriteStream (file : string) : M WriteStream.t :=
  fun p =>
    Ok {| WriteStream.dir := Process.cwd p; WriteStream.path := file |}
       (Process.set_files (<[(Process.cwd p, file) := Text EmptyString]> (Process.files p)) p).
End fs.

Section Packager.
Context `{Libraries} `{ActionUtils}.

(** [(await fs.stat(file)).size]. *)
Definition stat_size (file : string) : M nat :=
  fault;;
  fun p =>
    match Process.files p !! (Process.cwd p, file) with
    | Some (Text s) => Ok (byteLength s) p
    | Some (Bytes b) => Ok (length b) p
    | None => Throw (ENOENT file) p
    end.

Definition logFile (file : string) : M unit :=
  let* size := stat_size file in
  console.log ("Created: " ++ file ++ " (" ++ toString size ++ " bytes)").

Definition save (data : RepoData) (type : TagType) : M unit :=
  let type := TagType_name type in
  let json := JSON_stringify data in
  fs.writeFile ("db." ++ type ++ ".json") (Text json);;
  logFile ("db." ++ type ++ ".json");;
  let gz := gzip json in
  fs.writeFile ("db." ++ type ++ ".json.gz") (Bytes gz);;
  logFile ("db." ++ type ++ ".json.gz");;
  let* jsonp := fs.createWriteStream ("db." ++ type ++ ".js") in
  let write := fun data => WriteStream.write jsonp data in
  write ("(function(){var d={c:'load_ehtagtranslation_db_" ++ type ++ "',d:'");;
  write (base64 gz);;
  write "'};";;
  write pako;;
  write "})();";;
  WriteStream.end_ jsonp;;
  logFile ("db." ++ type ++ ".js").

Definition TagType_eqb (a b : TagType) : bool :=
  match a, b with
  | full, full | raw, raw | text, text | html, html | ast, ast => true
  | _, _ => false
  end.

(** [data[k] = v] on the record [data] of [createRelease]. *)
Definition data_set (data : TagType -> option RepoData) (k : TagType) (v : RepoData)
    : TagType -> option RepoData :=
  fun k' => if TagType_eqb k' k then Some v else data k'.

(** Lines 50-52. *)
Fixpoint renderAll (db : Database.t RepoData) (ks : list TagType)
    (data : TagType -> option RepoData) : M (TagType -> option RepoData) :=
  match ks with
  | [] => ret data
  | k :: ks =>
      match Database.render db k with
      | Some d => renderAll db ks (data_set data k d)
      | None => throw (RenderRejected k)
      end
  end.

(** Lines 58-60.  A missing [data[k]] would make [fs.writeFile] throw. *)
Fixpoint saveAll (ks : list TagType) (data : TagType -> option RepoData) : M unit :=
  match ks with
  | [] => ret tt
  | k :: ks =>
      match data k with
      | Some d => save d k;; saveAll ks data
      | None => throw TypeError
      end
  end.

Definition createRelease (db : Database.t RepoData) (destination : string) : M unit :=
  console.log "Building releases...";;
  console.log ("  Source: " ++ Database.repoPath db);;
  console.log ("  Destination: " ++ destination);;
  let* data := renderAll db types (fun _ => None) in
  let* old := process.cwd in
  fs.ensureDir destination;;
  process.chdir destination;;
  (if isAction then action.startGroup "files" else console.log EmptyString);;
  saveAll types data;;
  (if isAction then action.endGroup else console.log EmptyString);;
  process.chdir old.

End Packager.

(** ** Derived notions used by the statements *)

Section Verdict.
Context `{Ehentai}.

(** The finding of one tag, none or one: what the loop body hands to the
    logger once the progress display is left out. *)
Definition verdict (ns : NamespaceName) (entry : RawTag * TagLine.t) : list Finding :=
  match normalizeTag ns (fst entry) true with
  | None =>
      if (String.length (fst entry) <=? 2)%nat
      then [(info, context (fst entry) (snd entry),
             "Tag is too short, you should check it manually.")]
      else [(warn, context (fst entry) (snd entry), "Tag not found.")]
  | Some normTag =>
      if negb (String.eqb (snd normTag) (fst entry))
      then [(warn, context (fst entry) (snd entry),
             "Tag renamed: => " ++ fst normTag ++ ":" ++ snd normTag)]
      else []
  end.

(** The findings and the tags of one property of [db.data]. *)
Definition entryFindings (e : NamespaceName * NamespaceDatabase.t) : list Finding :=
  if String.eqb (fst e) "rows" then []
  else flat_map (verdict (fst e)) (NamespaceDatabase.raw (snd e)).

Definition entryTags (e : NamespaceName * NamespaceDatabase.t) : nat :=
  if String.eqb (fst e) "rows" then 0 else length (NamespaceDatabase.raw (snd e)).

End Verdict.

(** The events that are not writes of the progress display. *)
Definition observable (e : Event) : bool :=
  match e with
  | stderr_write _ => false
  | _ => true
  end.

(** The exit signal is set to a value other than zero. *)
Definition failing (p : Process.t) : Prop :=
  exists c, Process.exitCode p = Some c /\ c <> 0%Z.

(** The annotation that [ActionLogger.log] issues for a finding, and the
    annotations among what was printed. *)
Definition annotation_of (f : Finding) : Output :=
  let '(logger, context, message) := f in
  out_annotation (ActionLogger.map logger)
    (ActionLogger.buildMessage logger context message)
    ("database/" ++ Context.namespace context ++ ".md")
    (Context.line context).

Definition is_annotation (o : Output) : bool :=
  match o with
  | out_annotation _ _ _ _ => true
  | _ => false
  end.

Definition annotations (p : Process.t) : list Output :=
  List.filter is_annotation (Process.stdout p).

Definition level_of (f : Finding) : Level := fst (fst f).

(** The call to the logger that stands behind a finding. *)
Definition call_of (f : Finding) : Event :=
  let '(logger, context, message) := f in logger_call logger context message.

(** ** Reading the artifacts back

    The release tool only writes the artifacts; what follows is the side of
    their reader, used to state the round trip. *)

(** [strip_prefix pre s] is what follows [pre] in [s]. *)
Fixpoint strip_prefix (pre s : string) : option string :=
  match pre, s with
  | EmptyString, _ => Some s
  | String a pre', String b s' => if Ascii.eqb a b then strip_prefix pre' s' else None
  | String _ _, EmptyString => None
  end.

Definition apostrophe : ascii := ascii_of_nat 39.

(** The text up to the first apostrophe. *)
Fixpoint until_quote (s : string) : string :=
  match s with
  | EmptyString => EmptyString
  | String c s' => if Ascii.eqb c apostrophe then EmptyString else String c (until_quote s')
  end.

Fixpoint quote_free (s : string) : bool :=
  match s with
  | EmptyString => true
  | String c s' => negb (Ascii.eqb c apostrophe) && quote_free s'
  end.

(** The opening of the script of kind [type], up to the quote that opens the
    payload. *)
Definition script_head (type : TagType) : string :=
  "(function(){var d={c:'load_ehtagtranslation_db_" ++ TagType_name type ++ "',d:'".

(** The payload of a script: the string literal bound to [d], read as a
    loader does, from the opening of the script to the closing quote. *)
Definition payload (type : TagType) (js : string) : option string :=
  option_map until_quote (strip_prefix (script_head type) js).

(** The final process of a call: returned to, thrown out of, or died in. *)
Definition final {A : Type} (r : Result A) : Process.t :=
  match r with
  | Ok _ p => p
  | Throw _ p => p
  end.

Definition succeeded {A : Type} (r : Result A) : Prop :=
  match r with
  | Ok _ _ => True
  | Throw _ _ => False
  end.

(** The three artifacts of a kind, as keys of the file system of [p]. *)
Definition artifact (p : Process.t) (type : TagType) (suffix : string) : string * string :=
  (Process.cwd p, "db." ++ TagType_name type ++ suffix).

(** The text of the script of a kind around a payload. *)
Definition script (type : TagType) (payload decompressor : string) : string :=
  "(function(){var d={c:'load_ehtagtranslation_db_" ++ TagType_name type ++ "',d:'"
  ++ payload ++ "'};" ++ decompressor ++ "})();".

(** What a successful call leaves of the working directory, the directories
    and the files. *)
Definition leaves {A : Type} (r : Result A) (p : Process.t)
    (fs' : gmap (string * string) Content) : Prop :=
  forall a q, r = Ok a q ->
    Process.cwd q = Process.cwd p /\ Process.dirs q = Process.dirs p
    /\ Process.files q = fs'.

(** A computation that leaves the working directory where it was, whether
    it returns or throws. *)
Definition keeps_cwd {A : Type} (m : M A) : Prop :=
  forall p, Process.cwd (final (m p)) = Process.cwd p.

(** [ends r Q E]: the call ended in a process that satisfies [Q] when it
    returned and [E] when it threw. *)
Definition ends {A : Type} (r : Result A) (Q E : Process.t -> Prop) : Prop :=
  match r with
  | Ok _ q => Q q
  | Throw _ q => E q
  end.

(** A file that is none of the artifacts of the kinds [ks] in [dir]. *)
Definition foreign (dir : string) (ks : list TagType) (key : string * string) : Prop :=
  forall k s, In k ks -> In s [".json"; ".json.gz"; ".js"] ->
    key <> (dir, "db." ++ TagType_name k ++ s).

(** ** A small database and environment for the examples

    The scenario of the specification: a namespace [A] whose tags are
    [ok], [zz] and [xx], where the canonical source knows [ok], knows [xx]
    under the name [xy], and does not know [zz]; two more tags, [gone]
    (unknown) and [moved] (known under the same name in namespace [B]); and
    the meta-entry [rows]. *)

Definition demo_normalizeTag (ns : NamespaceName) (tag : RawTag) (exact : bool)
    : option (NamespaceName * RawTag) :=
  if String.eqb tag "ok" then Some (ns, "ok")
  else if String.eqb tag "xx" then Some (ns, "xy")
  else if String.eqb tag "moved" then Some ("B", "moved")
  else None.

Definition demoEhentai : Ehentai :=
  {| MasterTag := string;
     loadMasterTags := Some ["ok"; "xy"; "moved"];
     normalizeTag := demo_normalizeTag |}.

Definition demoTerminal : Terminal := {| lineBegin := "<" |}.

Definition demoNumbers : Numbers :=
  {| sizeWidthOf := fun size => String.length (toString size);
     toFixed3 := fun count size => toString (count * 100 / size) |}.

Definition demoLine (ns : NamespaceName) (n : nat) : TagLine.t :=
  {| TagLine.record := {| TagRecord.namespace := ns |}; TagLine.line := n |}.

Definition demoRows : NamespaceDatabase.t :=
  {| NamespaceDatabase.name := "rows";
     NamespaceDatabase.size := 1;
     NamespaceDatabase.raw := [("hidden", demoLine "rows" 1)] |}.

Definition demoA : NamespaceDatabase.t :=
  {| NamespaceDatabase.name := "A";
     NamespaceDatabase.size := 5;
     NamespaceDatabase.raw :=
       [("ok", demoLine "A" 3); ("zz", demoLine "A" 4); ("xx", demoLine "A" 5);
        ("gone", demoLine "A" 6); ("moved", demoLine "A" 7)] |}.

Definition demoDb : Database.t string :=
  {| Database.repoPath := "/repo";
     Database.data := [("rows", demoRows); ("A", demoA)];
     Database.render := fun type => Some ("{" ++ TagType_name type ++ "}") |}.

Definition tty : Stderr.t := {| Stderr.isTTY := true; Stderr.width := 40 |}.
Definition piped : Stderr.t := {| Stderr.isTTY := false; Stderr.width := 0 |}.

(** A database all of whose findings are at level warn. *)
Definition demoWarnDb : Database.t string :=
  {| Database.repoPath := "/repo";
     Database.data :=
       [("A", {| NamespaceDatabase.name := "A";
                 NamespaceDatabase.size := 3;
                 NamespaceDatabase.raw :=
                   [("ok", demoLine "A" 3); ("xx", demoLine "A" 5);
                    ("gone", demoLine "A" 6)] |})];
     Database.render := fun type => Some ("{" ++ TagType_name type ++ "}") |}.

Definition demoAction : ActionUtils := {| isAction := true; ExitCode_Failure := 1 |}.

(** Stand-ins for the libraries in the examples: a container that stores
    the bytes behind the magic number of gzip, and the base64 encoding of
    RFC 4648 with its decoder. *)
Definition demo_gzip (s : string) : list Byte.byte :=
  (x1f :: x8b :: list_byte_of_string s)%list.

Definition demo_gunzip (bs : list Byte.byte) : option string :=
  match bs with
  | x1f :: x8b :: rest => Some (string_of_list_byte rest)
  | _ => None
  end.

Definition b64_alphabet : string :=
  "ABCDEFGHIJKLMNOPQRSTUVWXYZabcdefghijklmnopqrstuvwxyz0123456789+/".

Definition b64_pad : ascii := ascii_of_nat 61.

Definition b64_char (n : N) : ascii :=
  match String.get (N.to_nat n) b64_alphabet with
  | Some c => c
  | None => b64_pad
  end.

Fixpoint b64_find (c : ascii) (alphabet : string) (i : N) : option N :=
  match alphabet with
  | EmptyString => None
  | String a rest => if Ascii.eqb a c then Some i else b64_find c rest (N.succ i)
  end.

Definition b64_index (c : ascii) : option N := b64_find c b64_alphabet 0%N.

Definition b64_byte (n : N) : Byte.byte :=
  match Byte.of_N (n mod 256) with
  | Some b => b
  | None => x00
  end.

Fixpoint demo_base64 (bs : list Byte.byte) : string :=
  match bs with
  | [] => EmptyString
  | [a] =>
      let a := Byte.to_N a in
      String (b64_char (a / 4)) (String (b64_char (a mod 4 * 16))
        (String b64_pad (String b64_pad EmptyString)))
  | [a; b] =>
      let a := Byte.to_N a in
      let b := Byte.to_N b in
      String (b64_char (a / 4)) (String (b64_char (a mod 4 * 16 + b / 16))
        (String (b64_char (b mod 16 * 4)) (String b64_pad EmptyString)))
  | a :: b :: c :: rest =>
      let a := Byte.to_N a in
      let b := Byte.to_N b in
      let c := Byte.to_N c in
      String (b64_char (a / 4)) (String (b64_char (a mod 4 * 16 + b / 16))
        (String (b64_char (b mod 16 * 4 + c / 64)) (String (b64_char (c mod 64))
          (demo_base64 rest))))
  end%N.

Fixpoint demo_atob (s : string) : option (list Byte.byte) :=
  match s with
  | EmptyString => Some []
  | String c0 (String c1 (String c2 (String c3 rest))) =>
      match b64_index c0, b64_index c1 with
      | Some i0, Some i1 =>
          let b0 := b64_byte (i0 * 4 + i1 / 16) in
          match b64_index c2, b64_index c3, rest with
          | Some i2, Some i3, _ =>
              match demo_atob rest with
              | Some bs =>
                  Some (b0 :: b64_byte (i1 mod 16 * 16 + i2 / 4)
                           :: b64_byte (i2 mod 4 * 64 + i3) :: bs)%list
              | None => None
              end
          | Some i2, None, EmptyString =>
              if Ascii.eqb c3 b64_pad
              then Some [b0; b64_byte (i1 mod 16 * 16 + i2 / 4)]
              else None
          | None, None, EmptyString =>
              if Ascii.eqb c2 b64_pad && Ascii.eqb c3 b64_pad then Some [b0] else None
          | _, _, _ => None
          end
      | _, _ => None
      end
  | _ => None
  end%N.

Definition demoLibraries : Libraries :=
  {| RepoData := string;
     JSON_stringify := fun data => data;
     gzip := demo_gzip;
     base64 := demo_base64;
     pako := "function inflate(b){return b}";
     byteLength := String.length |}.

(** A process in /repo, without and with a failing file operation: in
    [demoFailing] the first operation ([fs.ensureDir]) succeeds and the
    second (the first [fs.writeFile]) fails. *)
Definition demoProcess : Process.t :=
  {| Process.cwd := "/repo";
     Process.dirs := {["/repo"]};
     Process.files := ∅;
     Process.faults := [];
     Process.stdout := [];
     Process.stderr := [];
     Process.exitCode := None |}.

Definition demoFailing : Process.t := Process.set_faults [false; true] demoProcess.


(** * The badge endpoints

    [DatabaseBadgeController] of the server: the badges that report the
    state of the database. *)

Module Badge.
Record t := { schemaVersion : nat; label : string; message : string; isError : bool }.
End Badge.

(** [!s] for a string: [true] for the empty string alone. *)
Definition is_empty (s : string) : bool :=
  match s with
  | EmptyString => true
  | String _ _ => false
  end.

(** [makeBadge(label, message, error = false)]; [error] is [None] when the
    caller passes none. *)
Definition makeBadge (label message : string) (error : option bool) : Badge.t :=
  let error := default false error in
  let error := if is_empty label then true else error in
  let label := if is_empty label then "no-label" else label in
  let error := if is_empty message then true else error in
  let message := if is_empty message then "no-message" else message in
  {| Badge.schemaVersion := 1;
     Badge.label := label;
     Badge.message := message;
     Badge.isError := error |}.

(** shared/interfaces/ehtag: the array [NamespaceName] of the namespace
    names, a constant that is not among the sources. *)
Class Ehtag := { NamespaceNames : list NamespaceName }.

(** [data[namespace]]: the value of the property, [None] for [undefined]. *)
Fixpoint data_get (data : list (NamespaceName * NamespaceDatabase.t))
    (namespace : NamespaceName) : option NamespaceDatabase.t :=
  match data with
  | [] => None
  | (k, v) :: rest => if String.eqb k namespace then Some v else data_get rest namespace
  end.

(** [getBadge] once [this.service.data.sha()] has given [sha];
    [sha.slice(0, 8)] is the first eight characters, or all of them. *)
Definition getBadge (sha : string) : Badge.t :=
  makeBadge "database" (String.substring 0 8 sha) None.

(** The callback of [reduce] in [getBadgeAll]; reading [size] of a missing
    namespace throws ([None]). *)
Definition addSize {RepoData : Type} (db : Database.t RepoData)
    (sum : option nat) (namespace : NamespaceName) : option nat :=
  match sum with
  | None => None
  | Some sum =>
      match data_get (Database.data db) namespace with
      | Some ns => Some (sum + NamespaceDatabase.size ns)
      | None => None
      end
  end.

Definition getBadgeAll `{Ehtag} {RepoData : Type} (db : Database.t RepoData)
    : option Badge.t :=
  match fold_left (addSize db) NamespaceNames (Some 0) with
  | Some size => Some (makeBadge "all records" (toString size) None)
  | None => None
  end.

Definition getBadgeNs {RepoData : Type} (db : Database.t RepoData)
    (namespace : NamespaceName) : option Badge.t :=
  match data_get (Database.data db) namespace with
  | Some ns => Some (makeBadge namespace (toString (NamespaceDatabase.size ns)) None)
  | None => None
  end.

(** ** Further derived notions *)

(** The number of writes to the standard error among the events. *)
Definition stderr_writes (out : list Event) : nat :=
  length (List.filter (fun e => negb (observable e)) out).

Section Suspect.
Context `{Ehentai}.

(** A tag that the strict mode objects to: unknown with more than two
    characters, or known under another name. *)
Definition suspect (ns : NamespaceName) (tag : RawTag) : Prop :=
  (normalizeTag ns tag true = None /\ 2 < String.length tag)
  \/ (exists cns ctag, normalizeTag ns tag true = Some (cns, ctag) /\ ctag <> tag).

End Suspect.

(** The line that [logFile] prints for a file of [size] bytes. *)
Definition created (file : string) (size : nat) : Output :=
  out_line ("Created: " ++ file ++ " (" ++ toString size ++ " bytes)").

(** A second example environment: the names of the example database. *)
Definition demoEhtag : Ehtag := {| NamespaceNames := ["rows"; "A"] |}.

(** [triple P m Q E]: from a process that satisfies [P], the computation
    ends in a process that satisfies [Q] with the value returned, or [E]
    with the error when it does not return. *)
Definition triple {A : Type} (P : Process.t -> Prop) (m : M A)
    (Q : A -> Process.t -> Prop) (E : Error -> Process.t -> Prop) : Prop :=
  forall p, P p ->
    match m p with
    | Ok a q => Q a q
    | Throw e q => E e q
    end.

(** The errors that reach the caller as a rejection: all but the death of
    the process. *)
Definition rejection (e : Error) : Prop :=
  match e with
  | Unhandled _ => False
  | _ => True
  end.

(** The working directory is [c] and the file [key] holds [v] (or is
    missing). *)
Definition holds (c : string) (key : string * string) (v : option Content)
    (p : Process.t) : Prop :=
  Process.cwd p = c /\ Process.files p !! key = v.

(** An assertion on the process that survives time passing on the file
    operations and printing. *)
Definition steady (Inv : Process.t -> Prop) : Prop :=
  (forall fl p, Inv p -> Inv (Process.set_faults fl p))
  /\ (forall o p, Inv p -> Inv (Process.print o p)).

(** [E] is what is left of the assertion [Inv] where a computation that
    kept [Inv] does not return: [E] holds of a rejection in the process as
    it was, and of the death of the process in what the death leaves. *)
Definition fatal (Inv : Process.t -> Prop) (E : Error -> Process.t -> Prop) : Prop :=
  (forall e p, rejection e -> Inv p -> E e p)
  /\ (forall e p, Inv p -> E (Unhandled e) (Process.die unhandled_trace p)).

(** An assertion that survives a write to an artifact of the kind [type] in
    the working directory. *)
Definition survives_save (type : TagType) (Inv : Process.t -> Prop) : Prop :=
  forall p suffix v,
    In suffix [".json"; ".json.gz"; ".js"] ->
    Inv p ->
    Inv (Process.set_files
           (<[(Process.cwd p, "db." ++ TagType_name type ++ suffix) := v]>
              (Process.files p)) p)
    /\ Process.cwd
         (Process.set_files
            (<[(Process.cwd p, "db." ++ TagType_name type ++ suffix) := v]>
               (Process.files p)) p) = Process.cwd p.

(** An assertion that survives a change of the working directory and of the
    directories. *)
Definition roaming (Inv : Process.t -> Prop) : Prop :=
  (forall c p, Inv p -> Inv (Process.set_cwd c p))
  /\ (forall ds p, Inv p -> Inv (Process.set_dirs ds p)).

(** The assertion together with the fact that the stream [s] writes to the
    artifact with [suffix] in the working directory. *)
Definition streaming (type : TagType) (suffix : string) (Inv : Process.t -> Prop)
    (s : WriteStream.t) (p : Process.t) : Prop :=
  Inv p /\ WriteStream.dir s = Process.cwd p
  /\ WriteStream.path s = "db." ++ TagType_name type ++ suffix.

(** The size of a namespace of the database by name, 0 when it is missing. *)
Definition sizeOf {RepoData : Type} (db : Database.t RepoData) (name : NamespaceName) : nat :=
  match data_get (Database.data db) name with
  | Some ns => NamespaceDatabase.size ns
  | None => 0
  end.


(** More of the example environment: a database whose rendering of the
    kind html is rejected, an array of names with one that the example
    database lacks, rendered data for every kind, and a process whose
    twelfth file operation fails (the first of the second [save]). *)
Definition demoBrokenDb : Database.t string :=
  {| Database.repoPath := "/repo";
     Database.data := [("rows", demoRows); ("A", demoA)];
     Database.render := fun type =>
       match type with
       | html => None
       | _ => Some ("{" ++ TagType_name type ++ "}")
       end |}.

Definition demoEhtagMissing : Ehtag := {| NamespaceNames := ["rows"; "A"; "B"] |}.

Definition demoData : TagType -> option string :=
  fun type => Some ("{" ++ TagType_name type ++ "}").

Definition demoInterrupted : Process.t :=
  Process.set_faults (repeat false 11 ++ [true])%list demoProcess.

(** * Properties of the source checker *)

Section CheckerProperties.
Context `{Ehentai} `{Terminal} `{Numbers}.

Lemma findings_app (a b : list Event) :
  findings (a ++ b) = (findings a ++ findings b)%list.
Proof. unfold findings. apply flat_map_app. Qed.

Lemma findings_clearIfProgress err : findings (clearIfProgress err) = [].
Proof. unfold clearIfProgress. destruct (showProgress err); reflexivity. Qed.

Lemma findings_progress err size sizeWidth count ns tag :
  findings (progress err size sizeWidth count ns tag) = [].
Proof. unfold progress. destruct (showProgress err); reflexivity. Qed.

Lemma findings_checkTag err size sizeWidth ns count entry :
  findings (checkTag err size sizeWidth ns count entry) = verdict ns entry.
Proof.
  unfold checkTag, verdict.
  rewrite findings_app, findings_progress. simpl.
  destruct (normalizeTag ns (fst entry) true) as [normTag|].
  - destruct (negb (String.eqb (snd normTag) (fst entry))); [|reflexivity].
    rewrite findings_app, findings_clearIfProgress. reflexivity.
  - destruct (String.length (fst entry) <=? 2)%nat;
      rewrite findings_app, findings_clearIfProgress; reflexivity.
Qed.

Lemma checkNamespace_cons err size sizeWidth ns entry tags st :
  checkNamespace err size sizeWidth ns (entry :: tags) st =
  checkNamespace err size sizeWidth ns tags
    (S (fst st), (snd st ++ checkTag err size sizeWidth ns (S (fst st)) entry)%list).
Proof. reflexivity. Qed.

Lemma findings_checkNamespace err size sizeWidth ns tags :
  forall st,
    findings (snd (checkNamespace err size sizeWidth ns tags st)) =
    (findings (snd st) ++ flat_map (verdict ns) tags)%list.
Proof.
  induction tags as [|entry tags IH]; intros st.
  - simpl. now rewrite app_nil_r.
  - rewrite checkNamespace_cons, IH. simpl.
    rewrite findings_app, findings_checkTag. now rewrite <- app_assoc.
Qed.



Lemma checkData_cons err size sizeWidth e data st :
  checkData err size sizeWidth (e :: data) st =
  checkData err size sizeWidth data
    (if String.eqb (fst e) "rows" then st
     else checkNamespace err size sizeWidth (fst e) (NamespaceDatabase.raw (snd e)) st).
Proof. reflexivity. Qed.

Lemma findings_checkData err size sizeWidth data :
  forall st,
    findings (snd (checkData err size sizeWidth data st)) =
    (findings (snd st) ++ flat_map entryFindings data)%list.
Proof.
  induction data as [|e data IH]; intros st.
  - simpl. now rewrite app_nil_r.
  - rewrite checkData_cons, IH. simpl. unfold entryFindings at 2.
    destruct (String.eqb (fst e) "rows"); [reflexivity|].
    rewrite findings_checkNamespace. now rewrite <- app_assoc.
Qed.


(** The findings of a whole run are those of its tags, in iteration order. *)
Lemma findings_runSourceCheck {RepoData : Type} err (db : Database.t RepoData) :
  findings (fst (runSourceCheck err db)) =
  match loadMasterTags with
  | Some _ => flat_map entryFindings (Database.data db)
  | None => []
  end.
Proof.
  unfold runSourceCheck. destruct loadMasterTags as [t|]; [|reflexivity].
  simpl. rewrite findings_app, findings_checkData. simpl.
  now rewrite app_nil_r.
Qed.

(** Where the finding of a tag stands in a run: after the findings of the
    tags iterated before it and before those of the tags iterated after
    it.  By [findings_checkTag] the middle part is what the loop body hands
    to the logger for this tag. *)
Lemma findings_runSourceCheck_at {RepoData : Type} err (db : Database.t RepoData)
    t before ns nsDb after earlier entry later :
  loadMasterTags = Some t ->
  Database.data db = (before ++ (ns, nsDb) :: after)%list ->
  ns <> "rows" ->
  NamespaceDatabase.raw nsDb = (earlier ++ entry :: later)%list ->
  findings (fst (runSourceCheck err db)) =
  ((flat_map entryFindings before ++ flat_map (verdict ns) earlier)
   ++ verdict ns entry
   ++ (flat_map (verdict ns) later ++ flat_map entryFindings after))%list.
Proof.
  intros Hload Hdata Hns Hraw.
  rewrite findings_runSourceCheck, Hload, Hdata, flat_map_app. simpl.
  unfold entryFindings at 2. simpl.
  apply String.eqb_neq in Hns. rewrite Hns, Hraw, flat_map_app. simpl.
  now rewrite <- !app_assoc.
Qed.

Lemma completion_runSourceCheck {RepoData : Type} err (db : Database.t RepoData) :
  snd (runSourceCheck err db) =
  match loadMasterTags with Some _ => Returned | None => Rejected end.
Proof. unfold runSourceCheck. now destruct loadMasterTags. Qed.

End CheckerProperties.

(** ** What a run shows apart from the progress display *)

Section Observable.
Context `{Ehentai} `{Terminal} `{Numbers}.

Lemma observable_clearIfProgress err : List.filter observable (clearIfProgress err) = [].
Proof. unfold clearIfProgress. destruct (showProgress err); reflexivity. Qed.

Lemma observable_progress err size sizeWidth count ns tag :
  List.filter observable (progress err size sizeWidth count ns tag) = [].
Proof. unfold progress. destruct (showProgress err); reflexivity. Qed.

Lemma observable_checkTag err size sizeWidth ns count entry :
  List.filter observable (checkTag err size sizeWidth ns count entry) =
  map call_of (verdict ns entry).
Proof.
  unfold checkTag, verdict.
  rewrite List.filter_app, observable_progress. simpl.
  destruct (normalizeTag ns (fst entry) true) as [normTag|].
  - destruct (negb (String.eqb (snd normTag) (fst entry))); [|reflexivity].
    rewrite List.filter_app, observable_clearIfProgress. reflexivity.
  - destruct (String.length (fst entry) <=? 2)%nat;
      rewrite List.filter_app, observable_clearIfProgress; reflexivity.
Qed.

Lemma observable_checkNamespace err size sizeWidth ns tags :
  forall st,
    List.filter observable (snd (checkNamespace err size sizeWidth ns tags st)) =
    (List.filter observable (snd st) ++ map call_of (flat_map (verdict ns) tags))%list.
Proof.
  induction tags as [|entry tags IH]; intros st.
  - simpl. now rewrite app_nil_r.
  - rewrite checkNamespace_cons, IH. simpl.
    rewrite List.filter_app, observable_checkTag, map_app. now rewrite <- app_assoc.
Qed.

Lemma observable_checkData err size sizeWidth data :
  forall st,
    List.filter observable (snd (checkData err size sizeWidth data st)) =
    (List.filter observable (snd st) ++ map call_of (flat_map entryFindings data))%list.
Proof.
  induction data as [|e data IH]; intros st.
  - simpl. now rewrite app_nil_r.
  - rewrite checkData_cons, IH. simpl. unfold entryFindings at 2.
    destruct (String.eqb (fst e) "rows"); [reflexivity|].
    rewrite observable_checkNamespace, map_app. now rewrite <- app_assoc.
Qed.

(** Apart from the writes of the progress display, the events of a run do
    not depend on the terminal. *)
Lemma observable_runSourceCheck {RepoData : Type} err err' (db : Database.t RepoData) :
  List.filter observable (fst (runSourceCheck err db)) =
  List.filter observable (fst (runSourceCheck err' db)).
Proof.
  unfold runSourceCheck. destruct loadMasterTags as [t|]; [|reflexivity].
  simpl. rewrite !List.filter_app, !observable_checkData. reflexivity.
Qed.

End Observable.

Section StandardError.
Context `{ActionUtils}.

Lemma without_stderr_log this l c m p :
  Process.without_stderr (ActionLogger.log this l c m p) =
  ActionLogger.log this l c m (Process.without_stderr p).
Proof.
  unfold ActionLogger.log.
  destruct (Flags_get (ActionLogger.setFailed this) l); reflexivity.
Qed.

(** The logger of GitHub Actions neither reads nor writes the standard
    error: a process carries out the events of a run as it would carry out
    the observable ones, up to what the standard error received. *)
Lemma without_stderr_performAll (this : ActionLogger.t) out :
  forall p,
    Process.without_stderr (performAll this out p) =
    performAll this (List.filter observable out) (Process.without_stderr p).
Proof.
  induction out as [|e out IH]; intros p; [reflexivity|].
  simpl. rewrite IH. destruct e as [s|s|l c m]; simpl; try reflexivity.
  f_equal. destruct l; apply without_stderr_log.
Qed.

End StandardError.

(** ** The findings of the checker *)

Section CheckerClaims.
Context `{Ehentai} `{Terminal} `{Numbers}.

(** C1.  A tag that the canonical source does not know gets exactly one
    finding: in a run that loaded the canonical tags and iterates the tag
    (in a namespace other than [rows]), the logger receives, between the
    findings of the tags iterated before and those of the tags iterated
    after, one call for this tag, which is the one the loop body makes: at
    level info with the text "Tag is too short, ..." when the tag has at
    most two characters, at level warn with the text "Tag not found." when
    it has more.  The level is never the other one. *)
Theorem unmatched_tag_finding {RepoData : Type} err (db : Database.t RepoData)
    t before ns nsDb after earlier tag tagLine later :
  loadMasterTags = Some t ->
  Database.data db = (before ++ (ns, nsDb) :: after)%list ->
  ns <> "rows" ->
  NamespaceDatabase.raw nsDb = (earlier ++ (tag, tagLine) :: later)%list ->
  normalizeTag ns tag true = None ->
  (String.length tag <= 2 ->
   (forall size sizeWidth count,
      findings (checkTag err size sizeWidth ns count (tag, tagLine)) =
      [(info, context tag tagLine, "Tag is too short, you should check it manually.")])
   /\ findings (fst (runSourceCheck err db)) =
      ((flat_map entryFindings before ++ flat_map (verdict ns) earlier)
       ++ [(info, context tag tagLine, "Tag is too short, you should check it manually.")]
       ++ (flat_map (verdict ns) later ++ flat_map entryFindings after))%list)
  /\
  (2 < String.length tag ->
   (forall size sizeWidth count,
      findings (checkTag err size sizeWidth ns count (tag, tagLine)) =
      [(warn, context tag tagLine, "Tag not found.")])
   /\ findings (fst (runSourceCheck err db)) =
      ((flat_map entryFindings before ++ flat_map (verdict ns) earlier)
       ++ [(warn, context tag tagLine, "Tag not found.")]
       ++ (flat_map (verdict ns) later ++ flat_map entryFindings after))%list).
Proof.
  intros Hload Hdata Hns Hraw Hnone.
  rewrite (findings_runSourceCheck_at err db t before ns nsDb after earlier
             (tag, tagLine) later Hload Hdata Hns Hraw).
  split; intros Hlen; (split; [intros size sizeWidth count; rewrite findings_checkTag|]);
    unfold verdict; simpl; rewrite Hnone.
  - apply Nat.leb_le in Hlen. now rewrite Hlen.
  - apply Nat.leb_le in Hlen. now rewrite Hlen.
  - apply Nat.leb_gt in Hlen. now rewrite Hlen.
  - apply Nat.leb_gt in Hlen. now rewrite Hlen.
Qed.

(** C2.  A tag with a canonical match: in a run that loaded the canonical
    tags and iterates the tag (in a namespace other than [rows]), the
    logger receives, between the findings of the tags iterated before and
    those of the tags iterated after, exactly one call for this tag, at
    level warn and naming the match as namespace:tag, when the canonical
    tag name differs from the stored text, and no call for it when the two
    are equal.  In both cases this is what the loop body makes. *)
Theorem matched_tag_finding {RepoData : Type} err (db : Database.t RepoData)
    t before ns nsDb after earlier tag tagLine later cns ctag :
  loadMasterTags = Some t ->
  Database.data db = (before ++ (ns, nsDb) :: after)%list ->
  ns <> "rows" ->
  NamespaceDatabase.raw nsDb = (earlier ++ (tag, tagLine) :: later)%list ->
  normalizeTag ns tag true = Some (cns, ctag) ->
  (ctag <> tag ->
   (forall size sizeWidth count,
      findings (checkTag err size sizeWidth ns count (tag, tagLine)) =
      [(warn, context tag tagLine, "Tag renamed: => " ++ cns ++ ":" ++ ctag)])
   /\ findings (fst (runSourceCheck err db)) =
      ((flat_map entryFindings before ++ flat_map (verdict ns) earlier)
       ++ [(warn, context tag tagLine,
            ("Tag renamed: => " ++ cns ++ ":" ++ ctag)%string)]
       ++ (flat_map (verdict ns) later ++ flat_map entryFindings after))%list)
  /\
  (ctag = tag ->
   (forall size sizeWidth count,
      findings (checkTag err size sizeWidth ns count (tag, tagLine)) = [])
   /\ findings (fst (runSourceCheck err db)) =
      ((flat_map entryFindings before ++ flat_map (verdict ns) earlier)
       ++ (flat_map (verdict ns) later ++ flat_map entryFindings after))%list).
Proof.
  intros Hload Hdata Hns Hraw Hsome.
  rewrite (findings_runSourceCheck_at err db t before ns nsDb after earlier
             (tag, tagLine) later Hload Hdata Hns Hraw).
  split; intros Hcmp; (split; [intros size sizeWidth count; rewrite findings_checkTag|]);
    unfold verdict; simpl; rewrite Hsome; simpl.
  - apply String.eqb_neq in Hcmp. now rewrite Hcmp.
  - apply String.eqb_neq in Hcmp. now rewrite Hcmp.
  - apply String.eqb_eq in Hcmp. now rewrite Hcmp.
  - apply String.eqb_eq in Hcmp. now rewrite Hcmp.
Qed.

(** C10.  Only the tag name of the canonical match is compared: a match of
    the same tag name in another namespace than the one iterated gives no
    finding. *)
Theorem same_name_other_namespace_silent err size sizeWidth ns count tag tagLine cns :
  normalizeTag ns tag true = Some (cns, tag) ->
  cns <> ns ->
  findings (checkTag err size sizeWidth ns count (tag, tagLine)) = [].
Proof.
  intros Hsome _. rewrite findings_checkTag. unfold verdict. simpl.
  rewrite Hsome. simpl. now rewrite String.eqb_refl.
Qed.

(** C9.  Two runs over the same database and canonical source, whatever
    the terminal of each, hand the same findings to the logger, at the same
    levels and in the same order, and complete alike; carried out with the
    logger of GitHub Actions they leave processes that differ at most in
    what the standard error received. *)
Theorem progress_display_is_cosmetic {RepoData : Type} `{ActionUtils}
    (err err' : Stderr.t) (db : Database.t RepoData) :
  findings (fst (runSourceCheck err db)) = findings (fst (runSourceCheck err' db))
  /\ snd (runSourceCheck err db) = snd (runSourceCheck err' db)
  /\ forall (this : ActionLogger.t) (p : Process.t),
       Process.without_stderr (performAll this (fst (runSourceCheck err db)) p) =
       Process.without_stderr (performAll this (fst (runSourceCheck err' db)) p).
Proof.
  split; [|split].
  - now rewrite !findings_runSourceCheck.
  - now rewrite !completion_runSourceCheck.
  - intros this p. rewrite !without_stderr_performAll.
    now rewrite (observable_runSourceCheck err err').
Qed.

End CheckerClaims.

(** ** The meta-entry [rows] *)

Section RowsClaims.
Context `{Ehentai} `{Terminal} `{Numbers}.






End RowsClaims.

(** * Properties of the logger *)

Section LoggerProperties.
Context `{ActionUtils}.

Lemma setFailed_new (t l : Level) :
  Flags_get (ActionLogger.setFailed (ActionLogger.new (Some t))) l =
  (Level_rank t <=? Level_rank l)%nat.
Proof. destruct t, l; reflexivity. Qed.

Lemma exitCode_log this l c m p :
  Process.exitCode (ActionLogger.log this l c m p) =
  if Flags_get (ActionLogger.setFailed this) l then Some ExitCode_Failure
  else Process.exitCode p.
Proof.
  unfold ActionLogger.log.
  destruct (Flags_get (ActionLogger.setFailed this) l); reflexivity.
Qed.

Lemma stdout_log this l c m p :
  Process.stdout (ActionLogger.log this l c m p) =
  (Process.stdout p ++ [annotation_of (l, c, m)])%list.
Proof.
  unfold ActionLogger.log.
  destruct (Flags_get (ActionLogger.setFailed this) l); reflexivity.
Qed.

Lemma perform_logger_call (this : ActionLogger.t) l c m p :
  perform this (logger_call l c m) p = ActionLogger.log this l c m p.
Proof. destruct l; reflexivity. Qed.

Lemma annotations_perform (this : ActionLogger.t) e p :
  annotations (perform this e p) =
  (annotations p ++ map annotation_of (finding_of e))%list.
Proof.
  unfold annotations. destruct e as [s|s|l c m].
  - simpl. rewrite List.filter_app. simpl. reflexivity.
  - simpl. now rewrite app_nil_r.
  - rewrite perform_logger_call, stdout_log, List.filter_app. reflexivity.
Qed.

Lemma annotations_performAll (this : ActionLogger.t) out :
  forall p,
    annotations (performAll this out p) =
    (annotations p ++ map annotation_of (findings out))%list.
Proof.
  induction out as [|e out IH]; intros p; simpl.
  - now rewrite app_nil_r.
  - rewrite IH, annotations_perform, map_app. now rewrite <- app_assoc.
Qed.

Lemma exitCode_perform (this : ActionLogger.t) e p :
  Process.exitCode (perform this e p) =
  if existsb (fun f => Flags_get (ActionLogger.setFailed this) (level_of f)) (finding_of e)
  then Some ExitCode_Failure else Process.exitCode p.
Proof.
  destruct e as [s|s|l c m]; try reflexivity.
  rewrite perform_logger_call, exitCode_log. simpl. unfold level_of. simpl.
  now rewrite orb_false_r.
Qed.

Lemma exitCode_performAll (this : ActionLogger.t) out :
  forall p,
    Process.exitCode (performAll this out p) =
    if existsb (fun f => Flags_get (ActionLogger.setFailed this) (level_of f)) (findings out)
    then Some ExitCode_Failure else Process.exitCode p.
Proof.
  induction out as [|e out IH]; intros p; simpl; [reflexivity|].
  rewrite IH, exitCode_perform, existsb_app.
  destruct (existsb _ (finding_of e)); simpl;
    destruct (existsb _ (findings out)); reflexivity.
Qed.

Lemma existsb_all_warn (sf : Flags.t) (fs : list Finding) :
  fs <> [] ->
  Forall (fun f => level_of f = warn) fs ->
  existsb (fun f => Flags_get sf (level_of f)) fs = Flags.warn sf.
Proof.
  intros Hne Hall. induction Hall as [|f fs Hf Hall IH]; [congruence|].
  simpl. rewrite Hf. simpl. destruct fs as [|g fs].
  - simpl. now rewrite orb_false_r.
  - rewrite IH by discriminate. now rewrite orb_diag.
Qed.

End LoggerProperties.

(** ** The failure threshold *)

Section LoggerClaims.
Context `{ActionUtils}.

(** C3.  A logger constructed with threshold t marks exactly the severities
    at or above t in the order info < warn < error: all three for info,
    warn and error for warn, error alone for error.  Without an argument
    the threshold is error, and the logger that the command builds has
    threshold warn in strict mode and error otherwise. *)
Theorem threshold_marks_severities_at_or_above :
  (forall t l,
      Flags_get (ActionLogger.setFailed (ActionLogger.new (Some t))) l = true
      <-> Level_le t l)
  /\ ActionLogger.setFailed (ActionLogger.new (Some info)) =
     {| Flags.info := true; Flags.warn := true; Flags.error := true |}
  /\ ActionLogger.setFailed (ActionLogger.new (Some warn)) =
     {| Flags.info := false; Flags.warn := true; Flags.error := true |}
  /\ ActionLogger.setFailed (ActionLogger.new (Some error)) =
     {| Flags.info := false; Flags.warn := false; Flags.error := true |}
  /\ (forall t, ActionLogger.failed (ActionLogger.new (Some t)) = t)
  /\ ActionLogger.new None = ActionLogger.new (Some error)
  /\ (forall strict this,
        commandLogger strict = Some this ->
        ActionLogger.failed this = (if strict then warn else error)
        /\ forall l,
             Flags_get (ActionLogger.setFailed this) l = true
             <-> Level_le (if strict then warn else error) l).
Proof.
  assert (forall t l,
             Flags_get (ActionLogger.setFailed (ActionLogger.new (Some t))) l = true
             <-> Level_le t l) as Hmarks.
  { intros t l. rewrite setFailed_new. unfold Level_le. apply Nat.leb_le. }
  split; [exact Hmarks|]. do 5 (split; [reflexivity|]).
  intros strict this Hcmd. unfold commandLogger in Hcmd.
  destruct isAction; [|discriminate]. inversion Hcmd; subst this.
  split; [reflexivity|]. intros l. apply Hmarks.
Qed.

(** C4.  Provided the failure code is not zero: logging at a severity at or
    above the threshold leaves the exit signal set to a value other than
    zero, logging below the threshold leaves the signal as it was; the
    logger always returns to its caller, so every finding of a run is
    still annotated, in order; and a run all of whose findings (at least
    one) are at level warn, started with no failure signalled, signals a
    failure if and only if the threshold is warn or lower. *)
Theorem failure_signal_is_gated_and_deferred :
  ExitCode_Failure <> 0%Z ->
  (forall t l c m p,
      Level_le t l -> failing (ActionLogger.log (ActionLogger.new (Some t)) l c m p))
  /\ (forall t l c m p,
        ~ Level_le t l ->
        Process.exitCode (ActionLogger.log (ActionLogger.new (Some t)) l c m p) =
        Process.exitCode p)
  /\ (forall (this : ActionLogger.t) out p,
        annotations (performAll this out p) =
        (annotations p ++ map annotation_of (findings out))%list)
  /\ (forall t out p,
        findings out <> [] ->
        Forall (fun f => level_of f = warn) (findings out) ->
        ~ failing p ->
        (failing (performAll (ActionLogger.new (Some t)) out p) <-> Level_le t warn)).
Proof.
  intros Hcode. split; [|split; [|split]].
  - intros t l c m p Hle. exists ExitCode_Failure. split; [|exact Hcode].
    rewrite exitCode_log, setFailed_new.
    apply Nat.leb_le in Hle. now rewrite Hle.
  - intros t l c m p Hnle. rewrite exitCode_log, setFailed_new.
    destruct (Nat.leb_spec (Level_rank t) (Level_rank l)) as [Hle|Hgt]; [|reflexivity].
    contradiction.
  - intros this out p. apply annotations_performAll.
  - intros t out p Hne Hall Hok. unfold failing at 1.
    rewrite exitCode_performAll, (existsb_all_warn _ _ Hne Hall).
    destruct t; simpl; unfold Level_le; simpl.
    + split; [lia|]. intros _. now exists ExitCode_Failure.
    + split; [lia|]. intros _. now exists ExitCode_Failure.
    + split; [|lia]. intros Hf. exfalso. now apply Hok.
Qed.

End LoggerClaims.

(** * Strings *)

Lemma append_cons (x : ascii) (a b : string) : String x a ++ b = String x (a ++ b).
Proof. reflexivity. Qed.

Lemma append_assoc (a b c : string) : (a ++ b) ++ c = a ++ (b ++ c).
Proof.
  induction a as [|x a IH]; [reflexivity|].
  rewrite !append_cons. now rewrite IH.
Qed.

Lemma strip_prefix_append (pre s : string) : strip_prefix pre (pre ++ s) = Some s.
Proof.
  induction pre as [|x pre IH]; [reflexivity|].
  rewrite append_cons. simpl. now rewrite Ascii.eqb_refl.
Qed.

Lemma until_quote_append (s rest : string) :
  quote_free s = true -> until_quote (s ++ String apostrophe rest) = s.
Proof.
  induction s as [|x s IH]; intros Hfree.
  - reflexivity.
  - rewrite append_cons. simpl in *.
    apply andb_true_iff in Hfree as [Hx Hs].
    apply negb_true_iff in Hx. rewrite Hx. now rewrite IH.
Qed.

(** * Properties of the packager *)

Section PackagerProperties.
Context `{Libraries} `{ActionUtils}.

Lemma bind_Ok_inv {A B : Type} (m : M A) (f : A -> M B) p b p' :
  bind m f p = Ok b p' -> exists a q, m p = Ok a q /\ f a q = Ok b p'.
Proof.
  unfold bind. destruct (m p) as [a q|e q]; [eauto|discriminate].
Qed.

Ltac bind_inv H :=
  let a := fresh "a" in
  let q := fresh "q" in
  let Hq := fresh "Hq" in
  apply bind_Ok_inv in H as (a & q & Hq & H).

Lemma fault_Ok p : leaves (fault p) p (Process.files p).
Proof.
  intros a q. unfold fault. destruct (Process.faults p) as [|[] fl]; intros Heq;
    inversion Heq; subst; auto.
Qed.

Lemma stream_fault_Ok p : leaves (stream_fault p) p (Process.files p).
Proof.
  intros a q. unfold stream_fault. destruct (Process.faults p) as [|[] fl]; intros Heq;
    inversion Heq; subst; auto.
Qed.

Lemma writeFile_Ok file data p :
  leaves (fs.writeFile file data p) p (<[(Process.cwd p, file) := data]> (Process.files p)).
Proof.
  intros a q Heq. unfold fs.writeFile in Heq. bind_inv Heq.
  apply fault_Ok in Hq as (Hc & Hd & Hf).
  unfold modify in Heq. inversion Heq; subst. simpl. rewrite Hc, Hd, Hf. auto.
Qed.

Lemma logFile_Ok file p : leaves (logFile file p) p (Process.files p).
Proof.
  intros a q Heq. unfold logFile in Heq. bind_inv Heq.
  unfold stat_size in Hq. bind_inv Hq.
  apply fault_Ok in Hq0 as (Hc & Hd & Hf).
  assert (q0 = q1) as ->.
  { destruct (Process.files q1 !! (Process.cwd q1, file)) as [[s|b]|];
      inversion Hq; reflexivity. }
  unfold console.log, modify in Heq. inversion Heq; subst. simpl. auto.
Qed.

Lemma write_Ok (s : WriteStream.t) chunk p :
  leaves (WriteStream.write s chunk p) p
    (<[(WriteStream.dir s, WriteStream.path s) :=
         Text (match Process.files p !! (WriteStream.dir s, WriteStream.path s) with
               | Some (Text old) => old
               | _ => EmptyString
               end ++ chunk)]> (Process.files p)).
Proof.
  intros a q Heq. unfold WriteStream.write in Heq. bind_inv Heq.
  apply stream_fault_Ok in Hq as (Hc & Hd & Hf).
  unfold modify in Heq. inversion Heq; subst. simpl. rewrite Hc, Hd, Hf. auto.
Qed.

(** A write to a stream whose file holds the text [old]. *)
Lemma write_Ok_text (s : WriteStream.t) chunk p old m :
  Process.files p = <[(WriteStream.dir s, WriteStream.path s) := Text old]> m ->
  leaves (WriteStream.write s chunk p) p
    (<[(WriteStream.dir s, WriteStream.path s) := Text (old ++ chunk)]> m).
Proof.
  intros Hfiles a q Heq. apply write_Ok in Heq as (Hc & Hd & Hf).
  rewrite Hfiles in Hf. rewrite lookup_insert_eq, insert_insert_eq in Hf. auto.
Qed.

(** A successful [save] leaves the working directory where it was and adds
    exactly the three artifacts to the files. *)
Lemma save_Ok data type p :
  leaves (save data type p) p
    (<[artifact p type ".js" :=
         Text (script type (base64 (gzip (JSON_stringify data))) pako)]>
     (<[artifact p type ".json.gz" := Bytes (gzip (JSON_stringify data))]>
      (<[artifact p type ".json" := Text (JSON_stringify data)]> (Process.files p)))).
Proof.
  intros u p' Hs. unfold save in Hs.
  bind_inv Hs. apply writeFile_Ok in Hq as (Hc1 & Hd1 & Hf1).
  bind_inv Hs. apply logFile_Ok in Hq as (Hc2 & Hd2 & Hf2).
  bind_inv Hs. apply writeFile_Ok in Hq as (Hc3 & Hd3 & Hf3).
  bind_inv Hs. apply logFile_Ok in Hq as (Hc4 & Hd4 & Hf4).
  bind_inv Hs. unfold fs.createWriteStream in Hq. inversion Hq; subst a3 q3; clear Hq.
  set (jsonp := {| WriteStream.dir := Process.cwd q2;
                   WriteStream.path := "db." ++ TagType_name type ++ ".js" |}) in *.
  assert (Process.files
            (Process.set_files
               (<[(Process.cwd q2, "db." ++ TagType_name type ++ ".js") := Text EmptyString]>
                  (Process.files q2)) q2)
          = <[(WriteStream.dir jsonp, WriteStream.path jsonp) := Text EmptyString]>
              (Process.files q2)) as Hf5 by reflexivity.
  bind_inv Hs. apply (write_Ok_text _ _ _ _ _ Hf5) in Hq as (Hc6 & Hd6 & Hf6).
  bind_inv Hs. apply (write_Ok_text _ _ _ _ _ Hf6) in Hq as (Hc7 & Hd7 & Hf7).
  bind_inv Hs. apply (write_Ok_text _ _ _ _ _ Hf7) in Hq as (Hc8 & Hd8 & Hf8).
  bind_inv Hs. apply (write_Ok_text _ _ _ _ _ Hf8) in Hq as (Hc9 & Hd9 & Hf9).
  bind_inv Hs. apply (write_Ok_text _ _ _ _ _ Hf9) in Hq as (Hc10 & Hd10 & Hf10).
  bind_inv Hs. unfold WriteStream.end_ in Hq.
  apply stream_fault_Ok in Hq as (Hc11 & Hd11 & Hf11).
  apply logFile_Ok in Hs as (Hc12 & Hd12 & Hf12).
  simpl in *.
  assert (Process.cwd q2 = Process.cwd p) as Hcwd by congruence.
  split; [congruence|]. split; [congruence|].
  rewrite Hf12, Hf11, Hf10. unfold jsonp, artifact, script. simpl.
  rewrite Hcwd, Hf4, Hf3, Hf2, Hf1, Hc2, Hc1.
  rewrite !append_assoc. reflexivity.
Qed.

Lemma artifact_js_ne_gz p type : artifact p type ".js" <> artifact p type ".json.gz".
Proof.
  unfold artifact. intros Heq. apply (f_equal snd) in Heq. simpl in Heq.
  destruct type; cbv in Heq; discriminate.
Qed.

Lemma artifact_js_ne_json p type : artifact p type ".js" <> artifact p type ".json".
Proof.
  unfold artifact. intros Heq. apply (f_equal snd) in Heq. simpl in Heq.
  destruct type; cbv in Heq; discriminate.
Qed.

Lemma artifact_gz_ne_json p type : artifact p type ".json.gz" <> artifact p type ".json".
Proof.
  unfold artifact. intros Heq. apply (f_equal snd) in Heq. simpl in Heq.
  destruct type; cbv in Heq; discriminate.
Qed.

(** The three artifacts as a successful [save] leaves them. *)
Lemma save_artifacts data type p u p' :
  save data type p = Ok u p' ->
  Process.files p' !! artifact p type ".json" = Some (Text (JSON_stringify data))
  /\ Process.files p' !! artifact p type ".json.gz" =
     Some (Bytes (gzip (JSON_stringify data)))
  /\ Process.files p' !! artifact p type ".js" =
     Some (Text (script type (base64 (gzip (JSON_stringify data))) pako)).
Proof.
  intros Hs. apply save_Ok in Hs as (_ & _ & Hf). rewrite Hf.
  pose proof (artifact_js_ne_gz p type) as Hjg.
  pose proof (artifact_js_ne_json p type) as Hjj.
  pose proof (artifact_gz_ne_json p type) as Hgj.
  repeat split.
  - rewrite lookup_insert_ne by exact Hjj.
    rewrite lookup_insert_ne by exact Hgj.
    apply lookup_insert_eq.
  - rewrite lookup_insert_ne by exact Hjg. apply lookup_insert_eq.
  - apply lookup_insert_eq.
Qed.

Lemma script_shape type b64 decompressor :
  script type b64 decompressor =
  script_head type ++ (b64 ++ String apostrophe ("};" ++ decompressor ++ "})();")).
Proof. unfold script, script_head. rewrite !append_assoc. reflexivity. Qed.

(** Without a failing file operation [save] returns. *)
Lemma save_succeeds data type p :
  Process.faults p = [] -> succeeded (save data type p).
Proof.
  intros Hf.
  unfold save, logFile, stat_size, fs.writeFile, fs.createWriteStream,
    WriteStream.write, WriteStream.end_, console.log, modify, bind, fault, stream_fault.
  cbn.
  repeat (first [rewrite Hf | rewrite lookup_insert_eq]; cbn).
  exact I.
Qed.

End PackagerProperties.

(** ** The artifacts *)

Section PackagerClaims.
Context `{Libraries} `{ActionUtils}.

(** C6.  For every kind k and rendered data, when [save] returns (which it
    does when no file operation fails), the file db.k.js of the working
    directory holds exactly the opening text with the name of the kind,
    the base64 encoding of the bytes that db.k.json.gz holds, the text
    that closes the object, the source of the decompressor as it is, and
    the closing invocation. *)
Theorem script_artifact_is_the_concatenation (data : RepoData) (type : TagType)
    (p : Process.t) :
  (Process.faults p = [] -> succeeded (save data type p))
  /\ forall p',
       save data type p = Ok tt p' ->
       exists gz,
         Process.files p' !! (Process.cwd p, "db." ++ TagType_name type ++ ".json.gz") =
         Some (Bytes gz)
         /\ Process.files p' !! (Process.cwd p, "db." ++ TagType_name type ++ ".js") =
            Some (Text ("(function(){var d={c:'load_ehtagtranslation_db_"
                        ++ TagType_name type ++ "',d:'"
                        ++ base64 gz ++ "'};" ++ pako ++ "})();")).
Proof.
  split; [apply save_succeeds|].
  intros p' Hs. apply save_artifacts in Hs as (_ & Hgz & Hjs).
  exists (gzip (JSON_stringify data)). split; [exact Hgz|exact Hjs].
Qed.

(** C7.  For every kind k, when [save] returns: db.k.json holds the JSON
    text, decompressing the bytes of db.k.json.gz gives that text, and
    decoding the payload of db.k.js from base64 and decompressing it gives
    that text too.  The decompressor and the base64 decoder are those of
    the reader; they are assumed to invert pako's [gzip] and the base64
    encoding on the data at hand, and the base64 text to hold no
    apostrophe. *)
Theorem artifacts_round_trip (gunzip : list Byte.byte -> option string)
    (atob : string -> option (list Byte.byte))
    (data : RepoData) (type : TagType) (p p' : Process.t) :
  let json := JSON_stringify data in
  gunzip (gzip json) = Some json ->
  atob (base64 (gzip json)) = Some (gzip json) ->
  quote_free (base64 (gzip json)) = true ->
  save data type p = Ok tt p' ->
  exists gz js,
    Process.files p' !! (Process.cwd p, "db." ++ TagType_name type ++ ".json") =
    Some (Text json)
    /\ Process.files p' !! (Process.cwd p, "db." ++ TagType_name type ++ ".json.gz") =
       Some (Bytes gz)
    /\ gunzip gz = Some json
    /\ Process.files p' !! (Process.cwd p, "db." ++ TagType_name type ++ ".js") =
       Some (Text js)
    /\ match payload type js with
       | Some b64 =>
           match atob b64 with
           | Some bytes => gunzip bytes
           | None => None
           end
       | None => None
       end = Some json.
Proof.
  intros json Hgunzip Hatob Hfree Hs.
  apply save_artifacts in Hs as (Hjson & Hgz & Hjs).
  exists (gzip json), (script type (base64 (gzip json)) pako).
  repeat split; try assumption.
  rewrite script_shape. unfold payload.
  rewrite strip_prefix_append. simpl.
  rewrite (until_quote_append _ _ Hfree), Hatob. exact Hgunzip.
Qed.

End PackagerClaims.

(** * The working directory *)

Section WorkingDirectory.
Context `{Libraries} `{ActionUtils}.

Lemma keeps_cwd_ret {A : Type} (a : A) : keeps_cwd (ret a).
Proof. intros p. reflexivity. Qed.

Lemma keeps_cwd_throw {A : Type} (e : Error) : keeps_cwd (@throw A e).
Proof. intros p. reflexivity. Qed.

Lemma keeps_cwd_bind {A B : Type} (m : M A) (f : A -> M B) :
  keeps_cwd m -> (forall a, keeps_cwd (f a)) -> keeps_cwd (bind m f).
Proof.
  intros Hm Hf p. unfold bind. specialize (Hm p).
  destruct (m p) as [a q|e q]; simpl in *; [|exact Hm].
  now rewrite Hf.
Qed.

Lemma keeps_cwd_fault : keeps_cwd fault.
Proof. intros p. unfold fault. destruct (Process.faults p) as [|[] fl]; reflexivity. Qed.

Lemma keeps_cwd_stream_fault : keeps_cwd stream_fault.
Proof.
  intros p. unfold stream_fault. destruct (Process.faults p) as [|[] fl]; reflexivity.
Qed.

Lemma keeps_cwd_modify (f : Process.t -> Process.t) :
  (forall p, Process.cwd (f p) = Process.cwd p) -> keeps_cwd (modify f).
Proof. intros Hf p. simpl. apply Hf. Qed.

Lemma keeps_cwd_log s : keeps_cwd (console.log s).
Proof. apply keeps_cwd_modify. reflexivity. Qed.

Lemma keeps_cwd_startGroup name : keeps_cwd (action.startGroup name).
Proof. apply keeps_cwd_modify. reflexivity. Qed.

Lemma keeps_cwd_endGroup : keeps_cwd action.endGroup.
Proof. apply keeps_cwd_modify. reflexivity. Qed.

Lemma keeps_cwd_writeFile file data : keeps_cwd (fs.writeFile file data).
Proof.
  apply keeps_cwd_bind; [apply keeps_cwd_fault|]. intros _.
  apply keeps_cwd_modify. reflexivity.
Qed.

Lemma keeps_cwd_ensureDir directory : keeps_cwd (fs.ensureDir directory).
Proof.
  apply keeps_cwd_bind; [apply keeps_cwd_fault|]. intros _.
  apply keeps_cwd_modify. reflexivity.
Qed.

Lemma keeps_cwd_createWriteStream file : keeps_cwd (fs.createWriteStream file).
Proof. intros p. reflexivity. Qed.

Lemma keeps_cwd_write s chunk : keeps_cwd (WriteStream.write s chunk).
Proof.
  apply keeps_cwd_bind; [apply keeps_cwd_stream_fault|]. intros _.
  apply keeps_cwd_modify. reflexivity.
Qed.

Lemma keeps_cwd_logFile file : keeps_cwd (logFile file).
Proof.
  apply keeps_cwd_bind; [|intros size; apply keeps_cwd_log].
  apply keeps_cwd_bind; [apply keeps_cwd_fault|]. intros _ p.
  destruct (Process.files p !! (Process.cwd p, file)) as [[s|b]|]; reflexivity.
Qed.

Lemma keeps_cwd_save data type : keeps_cwd (save data type).
Proof.
  unfold save.
  repeat (apply keeps_cwd_bind;
          [solve [auto using keeps_cwd_writeFile, keeps_cwd_logFile,
                    keeps_cwd_createWriteStream, keeps_cwd_write,
                    keeps_cwd_stream_fault]
          |intros ?]).
  apply keeps_cwd_logFile.
Qed.

Lemma keeps_cwd_saveAll ks data : keeps_cwd (saveAll ks data).
Proof.
  induction ks as [|k ks IH]; simpl; [apply keeps_cwd_ret|].
  destruct (data k) as [d|]; [|apply keeps_cwd_throw].
  apply keeps_cwd_bind; [apply keeps_cwd_save|]. intros _. exact IH.
Qed.

Lemma keeps_cwd_renderAll db ks : forall data, keeps_cwd (renderAll db ks data).
Proof.
  induction ks as [|k ks IH]; intros data; simpl; [apply keeps_cwd_ret|].
  destruct (Database.render db k) as [d|]; [apply IH|apply keeps_cwd_throw].
Qed.

Lemma ends_bind_keeps {A B : Type} (m : M A) (f : A -> M B) p (Q E : Process.t -> Prop) :
  keeps_cwd m ->
  (forall a q, Process.cwd q = Process.cwd p -> ends (f a q) Q E) ->
  (forall q, Process.cwd q = Process.cwd p -> E q) ->
  ends (bind m f p) Q E.
Proof.
  intros Hm Hok Hthrow. unfold bind. specialize (Hm p).
  destruct (m p) as [a q|e q]; simpl in *; auto.
Qed.

Lemma ends_bind_cwd {B : Type} (f : string -> M B) p (Q E : Process.t -> Prop) :
  ends (f (Process.cwd p) p) Q E -> ends (bind process.cwd f p) Q E.
Proof. intros Hf. exact Hf. Qed.

Lemma ends_bind_chdir {B : Type} directory (f : unit -> M B) p (Q E : Process.t -> Prop) :
  (forall q, Process.cwd q = directory -> ends (f tt q) Q E) ->
  E p ->
  ends (bind (process.chdir directory) f p) Q E.
Proof.
  intros Hok Hthrow. unfold bind, process.chdir.
  destruct (decide (directory ∈ Process.dirs p)); simpl; auto.
Qed.

Lemma ends_chdir directory p (Q E : Process.t -> Prop) :
  (forall q, Process.cwd q = directory -> Q q) ->
  E p ->
  ends (process.chdir directory p) Q E.
Proof.
  intros Hok Hthrow. unfold process.chdir.
  destruct (decide (directory ∈ Process.dirs p)); simpl; auto.
Qed.

(** Where [createRelease] leaves the working directory: where it was when
    it returns, and where it was or at the destination when it throws. *)
Lemma createRelease_ends (db : Database.t RepoData) (destination : string)
    (p : Process.t) :
  ends (createRelease db destination p)
    (fun p' => Process.cwd p' = Process.cwd p)
    (fun p' => Process.cwd p' = Process.cwd p \/ Process.cwd p' = destination).
Proof.
  unfold createRelease.
  apply ends_bind_keeps; [apply keeps_cwd_log| |auto]. intros _ q1 H1.
  apply ends_bind_keeps; [apply keeps_cwd_log| |intros; left; congruence]. intros _ q2 H2.
  apply ends_bind_keeps; [apply keeps_cwd_log| |intros; left; congruence]. intros _ q3 H3.
  apply ends_bind_keeps; [apply keeps_cwd_renderAll| |intros; left; congruence].
  intros data q4 H4.
  apply ends_bind_cwd.
  apply ends_bind_keeps; [apply keeps_cwd_ensureDir| |intros; left; congruence].
  intros _ q5 H5.
  apply ends_bind_chdir; [|left; congruence]. intros q6 H6.
  apply ends_bind_keeps;
    [destruct isAction; [apply keeps_cwd_startGroup|apply keeps_cwd_log]
    | |intros; right; congruence].
  intros _ q7 H7.
  apply ends_bind_keeps; [apply keeps_cwd_saveAll| |intros; right; congruence].
  intros _ q8 H8.
  apply ends_bind_keeps;
    [destruct isAction; [apply keeps_cwd_endGroup|apply keeps_cwd_log]
    | |intros; right; congruence].
  intros _ q9 H9.
  apply ends_chdir; [|right; congruence].
  intros q10 H10. congruence.
Qed.

(** C8, amended to what the code does.  An invocation of [createRelease]
    that returns has restored the working directory in which it was
    called. *)
Theorem working_directory_restored_on_return (db : Database.t RepoData)
    (destination : string) (p p' : Process.t) :
  createRelease db destination p = Ok tt p' ->
  Process.cwd p' = Process.cwd p.
Proof.
  intros Hrun. pose proof (createRelease_ends db destination p) as Hends.
  rewrite Hrun in Hends. exact Hends.
Qed.

End WorkingDirectory.

(** * A whole release *)

Section Release.
Context `{Libraries} `{ActionUtils}.

Ltac bind_inv H :=
  let a := fresh "a" in
  let q := fresh "q" in
  let Hq := fresh "Hq" in
  apply bind_Ok_inv in H as (a & q & Hq & H).

(** The file names of the artifacts tell the kinds and the suffixes apart. *)
Lemma artifact_name_inj (k k' : TagType) (s s' : string) :
  In s [".json"; ".json.gz"; ".js"] ->
  In s' [".json"; ".json.gz"; ".js"] ->
  "db." ++ TagType_name k ++ s = "db." ++ TagType_name k' ++ s' ->
  k = k' /\ s = s'.
Proof.
  intros Hs Hs' Heq. simpl in Hs, Hs'.
  destruct Hs as [<-|[<-|[<-|[]]]]; destruct Hs' as [<-|[<-|[<-|[]]]];
    destruct k, k'; cbv in Heq; first [discriminate Heq | split; reflexivity].
Qed.

Lemma save_frame data type p u p' key :
  save data type p = Ok u p' ->
  foreign (Process.cwd p) [type] key ->
  Process.files p' !! key = Process.files p !! key.
Proof.
  intros Hs Hkey. apply save_Ok in Hs as (_ & _ & Hf). rewrite Hf.
  unfold artifact.
  rewrite !lookup_insert_ne; [reflexivity| | |];
    intros Heq; symmetry in Heq; revert Heq; apply Hkey; simpl; auto.
Qed.

Lemma saveAll_frame ks data : forall p u p' key,
  saveAll ks data p = Ok u p' ->
  foreign (Process.cwd p) ks key ->
  Process.files p' !! key = Process.files p !! key.
Proof.
  induction ks as [|k ks IH]; intros p u p' key Hs Hkey; simpl in Hs.
  - inversion Hs; subst. reflexivity.
  - destruct (data k) as [d|]; [|discriminate]. bind_inv Hs.
    pose proof (save_Ok _ _ _ _ _ Hq) as (Hc & _ & _).
    rewrite (IH _ _ _ key Hs).
    + apply (save_frame _ _ _ _ _ _ Hq).
      intros k' s [<-|[]] Hin. apply Hkey; simpl; auto.
    + rewrite Hc. intros k' s Hk' Hin. apply Hkey; simpl; auto.
Qed.

(** After [saveAll] over kinds without repetition, the artifacts of each
    kind are those that [save] made of [data[k]]. *)
Lemma saveAll_artifacts ks data : forall p u p',
  NoDup ks ->
  saveAll ks data p = Ok u p' ->
  forall k, In k ks ->
    exists d, data k = Some d
      /\ Process.files p' !! artifact p k ".json" = Some (Text (JSON_stringify d))
      /\ Process.files p' !! artifact p k ".json.gz" =
         Some (Bytes (gzip (JSON_stringify d)))
      /\ Process.files p' !! artifact p k ".js" =
         Some (Text (script k (base64 (gzip (JSON_stringify d))) pako)).
Proof.
  induction ks as [|k0 ks IH]; intros p u p' Hnd Hs k Hin; [destruct Hin|].
  simpl in Hs. destruct (data k0) as [d0|] eqn:Hd0; [|discriminate].
  bind_inv Hs. inversion Hnd as [|? ? Hnotin Hnd']; subst.
  pose proof (save_Ok _ _ _ _ _ Hq) as (Hc & _ & _).
  destruct Hin as [<-|Hin].
  - exists d0. split; [exact Hd0|].
    pose proof (save_artifacts _ _ _ _ _ Hq) as (Hjson & Hgz & Hjs).
    assert (forall s, In s [".json"; ".json.gz"; ".js"] ->
                      foreign (Process.cwd q) ks (artifact p k0 s)) as Hforeign.
    { intros s Hs' k' s' Hk' Hin' Heq. unfold artifact in Heq.
      apply (f_equal snd) in Heq. simpl in Heq.
      apply artifact_name_inj in Heq as [-> _]; auto.
      apply Hnotin. now apply list_elem_of_In. }
    rewrite !(saveAll_frame _ _ _ _ _ _ Hs) by (apply Hforeign; simpl; auto).
    auto.
  - destruct (IH _ _ _ Hnd' Hs k Hin) as (d & Hd & Hjson & Hgz & Hjs).
    exists d. unfold artifact in *. rewrite Hc in *. auto.
Qed.

Lemma renderAll_Ok db ks : forall data p data' p',
  renderAll db ks data p = Ok data' p' ->
  p' = p /\ forall k, data' k = if existsb (TagType_eqb k) ks
                                then Database.render db k else data k.
Proof.
  induction ks as [|k0 ks IH]; intros data p data' p' Hr; simpl in Hr.
  - inversion Hr; subst. auto.
  - destruct (Database.render db k0) as [d|] eqn:Hd; [|discriminate].
    apply IH in Hr as (-> & Hdata). split; [reflexivity|].
    intros k. rewrite Hdata. simpl. unfold data_set.
    destruct (existsb (TagType_eqb k) ks); [now rewrite orb_true_r|].
    rewrite orb_false_r.
    destruct (TagType_eqb k k0) eqn:Hk; [|reflexivity].
    destruct k, k0; try discriminate Hk; now rewrite Hd.
Qed.

Lemma bind_Ok_eq {A B : Type} (m : M A) (f : A -> M B) p a q :
  m p = Ok a q -> bind m f p = f a q.
Proof. intros Hm. unfold bind. now rewrite Hm. Qed.

Lemma modify_Ok f p u p' : modify f p = Ok u p' -> p' = f p.
Proof. intros Hm. now inversion Hm. Qed.

Lemma group_Ok (m : M unit) p u p' :
  m = (if isAction then action.startGroup "files" else console.log EmptyString)
  \/ m = (if isAction then action.endGroup else console.log EmptyString) ->
  m p = Ok u p' ->
  Process.cwd p' = Process.cwd p /\ Process.files p' = Process.files p.
Proof.
  intros [->| ->] Hm; destruct isAction; apply modify_Ok in Hm; subst; auto.
Qed.

Lemma chdir_Ok directory p u p' :
  process.chdir directory p = Ok u p' ->
  Process.cwd p' = directory /\ Process.files p' = Process.files p.
Proof.
  unfold process.chdir. destruct (decide (directory ∈ Process.dirs p));
    intros Hc; inversion Hc; subst; auto.
Qed.

(** A release that returns has rendered every kind and left, in the
    destination, the three artifacts of every kind: the JSON text of the
    rendering, its compressed bytes, and the script around their base64
    encoding. *)
Lemma createRelease_artifacts (db : Database.t RepoData) destination p u p' :
  createRelease db destination p = Ok u p' ->
  forall k, exists d,
    Database.render db k = Some d
    /\ Process.files p' !! (destination, "db." ++ TagType_name k ++ ".json") =
       Some (Text (JSON_stringify d))
    /\ Process.files p' !! (destination, "db." ++ TagType_name k ++ ".json.gz") =
       Some (Bytes (gzip (JSON_stringify d)))
    /\ Process.files p' !! (destination, "db." ++ TagType_name k ++ ".js") =
       Some (Text (script k (base64 (gzip (JSON_stringify d))) pako)).
Proof.
  intros Hrun k. unfold createRelease in Hrun.
  apply bind_Ok_inv in Hrun as (u1 & q1 & _ & Hrun).
  apply bind_Ok_inv in Hrun as (u2 & q2 & _ & Hrun).
  apply bind_Ok_inv in Hrun as (u3 & q3 & _ & Hrun).
  apply bind_Ok_inv in Hrun as (data & q4 & Hrender & Hrun).
  apply renderAll_Ok in Hrender as (-> & Hdata).
  apply bind_Ok_inv in Hrun as (old & q5 & Hold & Hrun).
  inversion Hold; subst old q5. clear Hold.
  apply bind_Ok_inv in Hrun as (u6 & q6 & _ & Hrun).
  apply bind_Ok_inv in Hrun as (u7 & q7 & Hchdir & Hrun).
  apply chdir_Ok in Hchdir as (Hc7 & _).
  apply bind_Ok_inv in Hrun as (u8 & q8 & Hgroup & Hrun).
  apply group_Ok in Hgroup as (Hc8 & _); [|auto].
  apply bind_Ok_inv in Hrun as (u9 & q9 & Hsave & Hrun).
  apply bind_Ok_inv in Hrun as (u10 & q10 & Hgroup & Hrun).
  apply group_Ok in Hgroup as (_ & Hf10); [|auto].
  apply chdir_Ok in Hrun as (_ & Hf11).
  assert (NoDup types) as Hnd.
  { apply NoDup_ListNoDup. unfold types.
    repeat constructor; simpl; intuition discriminate. }
  assert (In k types) as Hin by (destruct k; simpl; auto 10).
  destruct (saveAll_artifacts _ _ _ _ _ Hnd Hsave k Hin) as (d & Hd & Hjson & Hgz & Hjs).
  exists d. split.
  - rewrite Hdata in Hd. destruct k; exact Hd.
  - unfold artifact in *. rewrite Hc8, Hc7 in *.
    rewrite Hf11, Hf10. auto.
Qed.

(** Without a failing file operation [save] returns, and no failure is
    pending afterwards. *)
Lemma save_returns data type p :
  Process.faults p = [] ->
  exists p', save data type p = Ok tt p'
    /\ Process.faults p' = [] /\ Process.dirs p' = Process.dirs p.
Proof.
  intros Hf.
  unfold save, logFile, stat_size, fs.writeFile, fs.createWriteStream,
    WriteStream.write, WriteStream.end_, console.log, modify, bind, fault, stream_fault.
  cbn.
  repeat (first [rewrite Hf | rewrite lookup_insert_eq]; cbn).
  eexists. split; [reflexivity|]. cbn. auto.
Qed.

Lemma saveAll_returns ks data : forall p,
  Process.faults p = [] ->
  (forall k, In k ks -> is_Some (data k)) ->
  exists p', saveAll ks data p = Ok tt p'
    /\ Process.faults p' = [] /\ Process.dirs p' = Process.dirs p.
Proof.
  induction ks as [|k ks IH]; intros p Hf Hdata; simpl.
  - exists p. auto.
  - destruct (Hdata k) as [d Hd]; [simpl; auto|]. rewrite Hd.
    destruct (save_returns d k p Hf) as (q & Hs & Hfq & Hdq).
    destruct (IH q Hfq) as (p' & Hs' & Hfp & Hdp).
    { intros k' Hk'. apply Hdata. simpl. auto. }
    exists p'. unfold bind. rewrite Hs. split; [exact Hs'|].
    split; [exact Hfp|congruence].
Qed.

Lemma renderAll_returns db ks : forall data,
  (forall k, is_Some (Database.render db k)) ->
  exists data', forall p, renderAll db ks data p = Ok data' p.
Proof.
  induction ks as [|k ks IH]; intros data Hr; simpl.
  - exists data. reflexivity.
  - destruct (Hr k) as [d Hd]. rewrite Hd. apply IH. exact Hr.
Qed.

(** A release returns when every kind renders, no file operation fails and
    the working directory exists. *)
Lemma createRelease_returns (db : Database.t RepoData) destination p :
  (forall k, is_Some (Database.render db k)) ->
  Process.faults p = [] ->
  Process.cwd p ∈ Process.dirs p ->
  succeeded (createRelease db destination p).
Proof.
  intros Hrender Hf Hcwd. unfold createRelease.
  replace (if isAction then action.startGroup "files" else console.log EmptyString)
    with (modify (Process.print
                    (if isAction then out_startGroup "files" else out_line EmptyString)))
    by (destruct isAction; reflexivity).
  replace (if isAction then action.endGroup else console.log EmptyString)
    with (modify (Process.print (if isAction then out_endGroup else out_line EmptyString)))
    by (destruct isAction; reflexivity).
  do 3 (erewrite bind_Ok_eq; [|reflexivity]).
  destruct (renderAll_returns db types (fun _ => None) Hrender) as (data & Hdata).
  pose proof (renderAll_Ok _ _ _ _ _ _ (Hdata p)) as (_ & Hall).
  erewrite bind_Ok_eq; [|apply Hdata].
  erewrite bind_Ok_eq; [|reflexivity].
  erewrite bind_Ok_eq;
    [|unfold fs.ensureDir, bind, fault, modify; simpl; rewrite Hf; reflexivity].
  erewrite bind_Ok_eq;
    [|unfold process.chdir; simpl;
      rewrite decide_True
        by (apply elem_of_union; left; now apply elem_of_singleton);
      reflexivity].
  erewrite bind_Ok_eq; [|reflexivity].
  match goal with
  | |- succeeded (bind (saveAll types data) _ ?q) =>
      destruct (saveAll_returns types data q) as (q' & Hs & Hfq & Hdq)
  end.
  { exact Hf. }
  { intros k _. rewrite Hall. destruct k; apply Hrender. }
  erewrite bind_Ok_eq; [|exact Hs].
  erewrite bind_Ok_eq; [|reflexivity].
  unfold process.chdir. rewrite decide_True; [exact I|].
  simpl in *. rewrite Hdq. apply elem_of_union. right. exact Hcwd.
Qed.

End Release.

(** * The properties at work on the example database *)

Lemma unmatched_tag_finding_witness :
  findings (fst (@runSourceCheck demoEhentai demoTerminal demoNumbers string
                   tty demoDb)) =
  ([]
   ++ [(info, context "zz" (demoLine "A" 4),
        "Tag is too short, you should check it manually.")]
   ++ [(warn, context "xx" (demoLine "A" 5), "Tag renamed: => A:xy");
       (warn, context "gone" (demoLine "A" 6), "Tag not found.")])%list
  /\ findings (fst (@runSourceCheck demoEhentai demoTerminal demoNumbers string
                      tty demoDb)) =
     ([(info, context "zz" (demoLine "A" 4),
        "Tag is too short, you should check it manually.");
       (warn, context "xx" (demoLine "A" 5), "Tag renamed: => A:xy")]
      ++ [(warn, context "gone" (demoLine "A" 6), "Tag not found.")]
      ++ [])%list.
Proof.
  split.
  - refine (proj2 (proj1 (@unmatched_tag_finding demoEhentai demoTerminal demoNumbers
                            string tty demoDb ["ok"; "xy"; "moved"]
                            [("rows", demoRows)] "A" demoA []
                            [("ok", demoLine "A" 3)] "zz" (demoLine "A" 4)
                            [("xx", demoLine "A" 5); ("gone", demoLine "A" 6);
                             ("moved", demoLine "A" 7)]
                            eq_refl eq_refl _ eq_refl eq_refl) _)).
    + discriminate.
    + simpl. lia.
  - refine (proj2 (proj2 (@unmatched_tag_finding demoEhentai demoTerminal demoNumbers
                            string tty demoDb ["ok"; "xy"; "moved"]
                            [("rows", demoRows)] "A" demoA []
                            [("ok", demoLine "A" 3); ("zz", demoLine "A" 4);
                             ("xx", demoLine "A" 5)] "gone" (demoLine "A" 6)
                            [("moved", demoLine "A" 7)]
                            eq_refl eq_refl _ eq_refl eq_refl) _)).
    + discriminate.
    + simpl. lia.
Defined.

Lemma matched_tag_finding_witness :
  findings (fst (@runSourceCheck demoEhentai demoTerminal demoNumbers string
                   tty demoDb)) =
  ([(info, context "zz" (demoLine "A" 4),
     "Tag is too short, you should check it manually.")]
   ++ [(warn, context "xx" (demoLine "A" 5), "Tag renamed: => A:xy")]
   ++ [(warn, context "gone" (demoLine "A" 6), "Tag not found.")])%list
  /\ findings (fst (@runSourceCheck demoEhentai demoTerminal demoNumbers string
                      tty demoDb)) =
     ([]
      ++ [(info, context "zz" (demoLine "A" 4),
           "Tag is too short, you should check it manually.");
          (warn, context "xx" (demoLine "A" 5), "Tag renamed: => A:xy");
          (warn, context "gone" (demoLine "A" 6), "Tag not found.")])%list.
Proof.
  split.
  - refine (proj2 (proj1 (@matched_tag_finding demoEhentai demoTerminal demoNumbers
                            string tty demoDb ["ok"; "xy"; "moved"]
                            [("rows", demoRows)] "A" demoA []
                            [("ok", demoLine "A" 3); ("zz", demoLine "A" 4)]
                            "xx" (demoLine "A" 5)
                            [("gone", demoLine "A" 6); ("moved", demoLine "A" 7)]
                            "A" "xy"
                            eq_refl eq_refl _ eq_refl eq_refl) _)).
    + discriminate.
    + discriminate.
  - refine (proj2 (proj2 (@matched_tag_finding demoEhentai demoTerminal demoNumbers
                            string tty demoDb ["ok"; "xy"; "moved"]
                            [("rows", demoRows)] "A" demoA []
                            [] "ok" (demoLine "A" 3)
                            [("zz", demoLine "A" 4); ("xx", demoLine "A" 5);
                             ("gone", demoLine "A" 6); ("moved", demoLine "A" 7)]
                            "A" "ok"
                            eq_refl eq_refl _ eq_refl eq_refl) _)).
    + discriminate.
    + reflexivity.
Defined.

Lemma same_name_other_namespace_silent_witness :
  @normalizeTag demoEhentai "A" "moved" true = Some ("B", "moved")
  /\ "B" <> "A"
  /\ findings (@checkTag demoEhentai demoTerminal demoNumbers tty 5 1 "A" 5
                 ("moved", demoLine "A" 7)) = [].
Proof.
  split; [reflexivity|]. split; [discriminate|].
  apply (@same_name_other_namespace_silent demoEhentai demoTerminal demoNumbers
           tty 5 1 "A" 5 "moved" (demoLine "A" 7) "B").
  - reflexivity.
  - discriminate.
Defined.


Lemma threshold_marks_severities_witness :
  @commandLogger demoAction true = Some (ActionLogger.new (Some warn))
  /\ ActionLogger.failed (ActionLogger.new (Some warn)) = warn
  /\ (Flags_get (ActionLogger.setFailed (ActionLogger.new (Some warn))) error = true
      <-> Level_le warn error).
Proof.
  split; [reflexivity|].
  destruct (@threshold_marks_severities_at_or_above demoAction)
    as (_ & _ & _ & _ & _ & _ & Hcmd).
  destruct (Hcmd true (ActionLogger.new (Some warn)) eq_refl) as (Hfailed & Hmarks).
  split; [exact Hfailed|]. exact (Hmarks error).
Defined.

Lemma failure_signal_witness :
  @ExitCode_Failure demoAction <> 0%Z
  /\ failing (@ActionLogger.log demoAction (ActionLogger.new (Some warn)) warn
                (context "gone" (demoLine "A" 6)) "Tag not found." demoProcess)
  /\ Process.exitCode
       (@ActionLogger.log demoAction (ActionLogger.new (Some error)) warn
          (context "gone" (demoLine "A" 6)) "Tag not found." demoProcess) =
     Process.exitCode demoProcess
  /\ (failing (@performAll _ (@ActionLogger_Logger demoAction)
                 (ActionLogger.new (Some warn))
                 (fst (@runSourceCheck demoEhentai demoTerminal demoNumbers string
                         piped demoWarnDb))
                 demoProcess)
      <-> Level_le warn warn)
  /\ (failing (@performAll _ (@ActionLogger_Logger demoAction)
                 (ActionLogger.new (Some error))
                 (fst (@runSourceCheck demoEhentai demoTerminal demoNumbers string
                         piped demoWarnDb))
                 demoProcess)
      <-> Level_le error warn).
Proof.
  assert (@ExitCode_Failure demoAction <> 0%Z) as Hcode by discriminate.
  assert (~ failing demoProcess) as Hquiet.
  { intros (c & Hc & _). discriminate Hc. }
  destruct (@failure_signal_is_gated_and_deferred demoAction Hcode)
    as (Hset & Hkeep & _ & Hrun).
  split; [exact Hcode|]. split; [|split; [|split]].
  - apply Hset. unfold Level_le. simpl. lia.
  - apply Hkeep. unfold Level_le. simpl. lia.
  - apply Hrun; [discriminate| |exact Hquiet]. repeat constructor.
  - apply Hrun; [discriminate| |exact Hquiet]. repeat constructor.
Defined.

Lemma script_artifact_witness :
  @save demoLibraries "{full}" full demoProcess =
  Ok tt (final (@save demoLibraries "{full}" full demoProcess))
  /\ exists gz,
       Process.files (final (@save demoLibraries "{full}" full demoProcess))
       !! ("/repo", "db.full.json.gz") = Some (Bytes gz)
       /\ Process.files (final (@save demoLibraries "{full}" full demoProcess))
          !! ("/repo", "db.full.js") =
          Some (Text ("(function(){var d={c:'load_ehtagtranslation_db_full',d:'"
                      ++ demo_base64 gz ++ "'};function inflate(b){return b}})();")).
Proof.
  assert (@save demoLibraries "{full}" full demoProcess =
          Ok tt (final (@save demoLibraries "{full}" full demoProcess))) as Hsave.
  { vm_compute. reflexivity. }
  split; [exact Hsave|].
  exact (proj2 (@script_artifact_is_the_concatenation demoLibraries "{full}" full
                  demoProcess) _ Hsave).
Defined.

Lemma artifacts_round_trip_witness :
  exists gz js,
    Process.files (final (@save demoLibraries "{full}" full demoProcess))
    !! ("/repo", "db.full.json") = Some (Text "{full}")
    /\ Process.files (final (@save demoLibraries "{full}" full demoProcess))
       !! ("/repo", "db.full.json.gz") = Some (Bytes gz)
    /\ demo_gunzip gz = Some "{full}"
    /\ Process.files (final (@save demoLibraries "{full}" full demoProcess))
       !! ("/repo", "db.full.js") = Some (Text js)
    /\ match payload full js with
       | Some b64 =>
           match demo_atob b64 with
           | Some bytes => demo_gunzip bytes
           | None => None
           end
       | None => None
       end = Some "{full}".
Proof.
  apply (@artifacts_round_trip demoLibraries demo_gunzip demo_atob "{full}" full
           demoProcess (final (@save demoLibraries "{full}" full demoProcess))).
  - vm_compute. reflexivity.
  - vm_compute. reflexivity.
  - vm_compute. reflexivity.
  - vm_compute. reflexivity.
Defined.

Lemma working_directory_restored_witness :
  @createRelease demoLibraries demoAction demoDb "/repo/publish" demoProcess =
  Ok tt (final (@createRelease demoLibraries demoAction demoDb "/repo/publish"
                  demoProcess))
  /\ Process.cwd (final (@createRelease demoLibraries demoAction demoDb
                            "/repo/publish" demoProcess)) = "/repo".
Proof.
  assert (@createRelease demoLibraries demoAction demoDb "/repo/publish" demoProcess =
          Ok tt (final (@createRelease demoLibraries demoAction demoDb "/repo/publish"
                          demoProcess))) as Hrun.
  { vm_compute. reflexivity. }
  split; [exact Hrun|].
  exact (@working_directory_restored_on_return demoLibraries demoAction demoDb
           "/repo/publish" demoProcess _ Hrun).
Defined.

(** C8 as stated fails: the first [fs.writeFile] of the packaging fails, the
    error leaves [createRelease], and the working directory is still the
    destination. *)
Lemma createRelease_failure_leaves_destination :
  exists p',
    @createRelease demoLibraries demoAction demoDb "/repo/publish" demoFailing =
    Throw EIO p'
    /\ Process.cwd demoFailing = "/repo"
    /\ Process.cwd p' = "/repo/publish"
    /\ Process.cwd p' <> Process.cwd demoFailing.
Proof.
  eexists. split; [vm_compute; reflexivity|].
  split; [reflexivity|]. split; [reflexivity|]. discriminate.
Qed.

(** * Further properties of the source checker *)

Section CheckerExtras.
Context `{Ehentai} `{Terminal} `{Numbers} `{ActionUtils}.

Lemma verdict_levels ns entry :
  Forall (fun f => level_of f <> error) (verdict ns entry).
Proof.
  unfold verdict. destruct (normalizeTag ns (fst entry) true) as [normTag|].
  - destruct (negb _); repeat constructor; discriminate.
  - destruct (_ <=? _)%nat; repeat constructor; discriminate.
Qed.

Lemma verdict_length ns entry : length (verdict ns entry) <= 1.
Proof.
  unfold verdict. destruct (normalizeTag ns (fst entry) true) as [normTag|].
  - destruct (negb _); simpl; lia.
  - destruct (_ <=? _)%nat; simpl; lia.
Qed.

Lemma entryFindings_levels e :
  Forall (fun f => level_of f <> error) (entryFindings e).
Proof.
  unfold entryFindings. destruct (String.eqb (fst e) "rows"); [constructor|].
  apply List.Forall_flat_map. apply List.Forall_forall. intros entry _.
  apply verdict_levels.
Qed.

Lemma run_levels {RepoData : Type} err (db : Database.t RepoData) :
  Forall (fun f => level_of f <> error) (findings (fst (runSourceCheck err db))).
Proof.
  rewrite findings_runSourceCheck. destruct loadMasterTags; [|constructor].
  apply List.Forall_flat_map. apply List.Forall_forall. intros e _.
  apply entryFindings_levels.
Qed.

(** X1.  The checker hands findings to the logger at the levels info and
    warn only: no finding of a run is at level error. *)
Theorem checker_never_logs_error {RepoData : Type} err (db : Database.t RepoData) :
  Forall (fun f => level_of f = info \/ level_of f = warn)
         (findings (fst (runSourceCheck err db))).
Proof.
  eapply List.Forall_impl; [|apply run_levels].
  intros f Hf. destruct (level_of f) eqn:Hlevel; auto. congruence.
Qed.

Lemma existsb_error_only (fs : list Finding) :
  Forall (fun f => level_of f <> error) fs ->
  existsb (fun f => Flags_get (ActionLogger.setFailed (ActionLogger.new (Some error)))
                               (level_of f)) fs = false.
Proof.
  induction 1 as [|f fs Hf _ IH]; [reflexivity|].
  cbn [existsb]. rewrite IH, orb_false_r.
  destruct (level_of f) eqn:Hlevel; try reflexivity. congruence.
Qed.

(** X2.  Under the logger of GitHub Actions with the default threshold
    (no argument, or error: the command without --strict), a whole run of
    the checker leaves the exit code as it found it, whatever the database
    and the canonical source. *)
Theorem lenient_check_never_fails {RepoData : Type} err (db : Database.t RepoData)
    (p : Process.t) :
  Process.exitCode (performAll (ActionLogger.new None) (fst (runSourceCheck err db)) p)
  = Process.exitCode p
  /\ Process.exitCode
       (performAll (ActionLogger.new (Some error)) (fst (runSourceCheck err db)) p)
     = Process.exitCode p.
Proof.
  assert (Process.exitCode
            (performAll (ActionLogger.new (Some error)) (fst (runSourceCheck err db)) p)
          = Process.exitCode p) as Hkeep.
  { rewrite exitCode_performAll, existsb_error_only; [reflexivity|apply run_levels]. }
  split; exact Hkeep.
Qed.

Lemma verdict_warn ns tag tagLine :
  (exists f, In f (verdict ns (tag, tagLine)) /\ level_of f = warn) <-> suspect ns tag.
Proof.
  unfold verdict, suspect. simpl.
  destruct (normalizeTag ns tag true) as [[cns ctag]|]; simpl.
  - destruct (String.eqb_spec ctag tag) as [Heq|Hne]; simpl.
    + split.
      * intros (f & [] & _).
      * intros [[Hnone _]|(c1 & c2 & Hsome & Hne)]; [discriminate|].
        inversion Hsome; subst. contradiction.
    + split.
      * intros _. right. eauto.
      * intros _. eexists. split; [left; reflexivity|reflexivity].
  - destruct (Nat.leb_spec (String.length tag) 2) as [Hle|Hgt].
    + split.
      * intros (f & [<-|[]] & Hlevel). discriminate.
      * intros [[_ Hlong]|(c1 & c2 & Hsome & _)]; [lia|discriminate].
    + split.
      * intros _. left. auto.
      * intros _. eexists. split; [left; reflexivity|reflexivity].
Qed.

Lemma in_entryFindings f e :
  In f (entryFindings e) <->
  fst e <> "rows"
  /\ exists entry, In entry (NamespaceDatabase.raw (snd e)) /\ In f (verdict (fst e) entry).
Proof.
  unfold entryFindings. destruct (String.eqb_spec (fst e) "rows") as [Heq|Hne].
  - split; [intros []|]. intros [Hne _]. contradiction.
  - rewrite in_flat_map. split; [intros Hin; split; auto|intros [_ Hin]; exact Hin].
Qed.

(** X3.  Under the threshold warn (the command with --strict), a run whose
    load of the canonical tags succeeded, started with no failure
    signalled, signals a failure exactly when some tag of a namespace
    other than [rows] is unknown with more than two characters or known
    under another name.  Tags that are merely too short never fail a
    run. *)
Theorem strict_check_fails_on_suspect_tags {RepoData : Type} err
    (db : Database.t RepoData) t (p : Process.t) :
  ExitCode_Failure <> 0%Z ->
  loadMasterTags = Some t ->
  ~ failing p ->
  (failing (performAll (ActionLogger.new (Some warn)) (fst (runSourceCheck err db)) p)
   <->
   exists ns nsDb tag tagLine,
     In (ns, nsDb) (Database.data db) /\ ns <> "rows"
     /\ In (tag, tagLine) (NamespaceDatabase.raw nsDb) /\ suspect ns tag).
Proof.
  intros Hcode Hload Hquiet. unfold failing at 1.
  rewrite exitCode_performAll, findings_runSourceCheck, Hload.
  set (flag := fun f : Finding =>
                 Flags_get (ActionLogger.setFailed (ActionLogger.new (Some warn)))
                           (level_of f)).
  assert (forall f, In f (flat_map entryFindings (Database.data db)) ->
                    (flag f = true <-> level_of f = warn)) as Hflag.
  { intros f Hin. unfold flag.
    pose proof (run_levels err db) as Hlevels.
    rewrite findings_runSourceCheck, Hload in Hlevels.
    rewrite List.Forall_forall in Hlevels. specialize (Hlevels f Hin).
    destruct (level_of f) eqn:Hlevel; simpl; split; congruence. }
  destruct (existsb flag (flat_map entryFindings (Database.data db))) eqn:Hex.
  - split; [intros _|intros _; exists ExitCode_Failure; auto].
    apply existsb_exists in Hex as (f & Hin & Hf).
    apply Hflag in Hf; [|exact Hin].
    apply in_flat_map in Hin as ([ns nsDb] & He & Hin).
    apply in_entryFindings in Hin as (Hns & [tag tagLine] & Hentry & Hv).
    exists ns, nsDb, tag, tagLine. repeat split; auto.
    apply (verdict_warn ns tag tagLine). eauto.
  - split; [intros Hfail; exfalso; exact (Hquiet Hfail)|].
    intros (ns & nsDb & tag & tagLine & He & Hns & Hentry & Hsus).
    apply (verdict_warn ns tag tagLine) in Hsus as (f & Hv & Hlevel).
    assert (In f (flat_map entryFindings (Database.data db))) as Hin.
    { apply in_flat_map. exists (ns, nsDb). split; [exact He|].
      apply in_entryFindings. split; [exact Hns|]. eauto. }
    assert (existsb flag (flat_map entryFindings (Database.data db)) = true) as Htrue.
    { apply existsb_exists. exists f. split; [exact Hin|]. now apply Hflag. }
    congruence.
Qed.

(** X4.  Apart from the writes of the progress display, a run consists of
    the banner, the line that counts the canonical tags, the calls to the
    logger for the tags in iteration order, and a closing line; when the
    load of the canonical tags is rejected, of the banner alone: no tag is
    examined then. *)
Theorem run_apart_from_progress {RepoData : Type} err (db : Database.t RepoData) :
  List.filter observable (fst (runSourceCheck err db)) =
  match loadMasterTags with
  | Some t =>
      (console_log (LF ++ "Checking tags from source..." ++ LF)
       :: console_log ("Preloaded " ++ toString (length t) ++ " tags from tag group tool.")
       :: map call_of (flat_map entryFindings (Database.data db))
       ++ [console_log " "])%list
  | None => [console_log (LF ++ "Checking tags from source..." ++ LF)]
  end.
Proof.
  unfold runSourceCheck. destruct loadMasterTags as [t|]; [|reflexivity].
  simpl. rewrite List.filter_app, observable_checkData. reflexivity.
Qed.

Lemma stderr_writes_app (a b : list Event) :
  stderr_writes (a ++ b) = stderr_writes a + stderr_writes b.
Proof. unfold stderr_writes. now rewrite List.filter_app, length_app. Qed.

Lemma stderr_writes_call_of (fs : list Finding) : stderr_writes (map call_of fs) = 0.
Proof.
  induction fs as [|[[l c] m] fs IH]; [reflexivity|]. exact IH.
Qed.

Lemma stderr_writes_checkTag err size sizeWidth ns count entry :
  stderr_writes (checkTag err size sizeWidth ns count entry) =
  if showProgress err then 3 + length (verdict ns entry) else 0.
Proof.
  unfold checkTag, verdict, progress, clearIfProgress.
  destruct (showProgress err);
    destruct (normalizeTag ns (fst entry) true) as [normTag|];
    try destruct (negb (String.eqb (snd normTag) (fst entry)));
    try destruct (String.length (fst entry) <=? 2)%nat; reflexivity.
Qed.

Lemma stderr_writes_checkNamespace err size sizeWidth ns tags :
  forall st,
    stderr_writes (snd (checkNamespace err size sizeWidth ns tags st)) =
    stderr_writes (snd st)
    + (if showProgress err
       then 3 * length tags + length (flat_map (verdict ns) tags) else 0).
Proof.
  induction tags as [|entry tags IH]; intros st.
  - simpl. destruct (showProgress err); lia.
  - rewrite checkNamespace_cons, IH. simpl snd.
    rewrite stderr_writes_app, stderr_writes_checkTag.
    destruct (showProgress err); simpl; rewrite ?length_app; lia.
Qed.

Lemma stderr_writes_checkData err size sizeWidth data :
  forall st,
    stderr_writes (snd (checkData err size sizeWidth data st)) =
    stderr_writes (snd st)
    + (if showProgress err
       then 3 * list_sum (map entryTags data) + length (flat_map entryFindings data)
       else 0).
Proof.
  induction data as [|e data IH]; intros st.
  - simpl. destruct (showProgress err); lia.
  - rewrite checkData_cons, IH.
    change (list_sum (map entryTags (e :: data)))
      with (entryTags e + list_sum (map entryTags data)).
    change (flat_map entryFindings (e :: data))
      with (entryFindings e ++ flat_map entryFindings data)%list.
    rewrite length_app.
    set (T := list_sum (map entryTags data)).
    set (F := length (flat_map entryFindings data)).
    unfold entryTags, entryFindings.
    destruct (String.eqb (fst e) "rows").
    + destruct (showProgress err); simpl; lia.
    + rewrite stderr_writes_checkNamespace.
      destruct (showProgress err); simpl; lia.
Qed.

Lemma stderr_writes_run {RepoData : Type} err (db : Database.t RepoData) :
  stderr_writes (fst (runSourceCheck err db)) =
  match loadMasterTags with
  | Some _ =>
      if showProgress err
      then 3 * list_sum (map entryTags (Database.data db))
           + length (findings (fst (runSourceCheck err db)))
      else 0
  | None => 0
  end.
Proof.
  rewrite findings_runSourceCheck.
  unfold runSourceCheck. destruct loadMasterTags as [t|]; [|reflexivity].
  simpl fst. rewrite stderr_writes_app, stderr_writes_checkData.
  change (stderr_writes [console_log " "]) with 0. simpl snd.
  match goal with
  | |- stderr_writes ?out + _ + _ = _ => change (stderr_writes out) with 0
  end.
  destruct (showProgress err); lia.
Qed.

Lemma stderr_perform_silent (this : ActionLogger.t) out :
  forall p,
    stderr_writes out = 0 ->
    Process.stderr (performAll this out p) = Process.stderr p.
Proof.
  induction out as [|e out IH]; intros p Hzero; [reflexivity|].
  destruct e as [s|s|l c m].
  - simpl. rewrite IH; [reflexivity|exact Hzero].
  - discriminate Hzero.
  - simpl. rewrite IH; [|exact Hzero]. destruct l; simpl;
      unfold ActionLogger.log;
      destruct (Flags_get (ActionLogger.setFailed this) _); reflexivity.
Qed.

(** X5.  When the standard error is no terminal, or the window has no
    positive width, a run writes nothing to the standard error: none of
    its events is such a write, and the logger of GitHub Actions leaves
    the standard error of the process as it was. *)
Theorem no_progress_without_terminal {RepoData : Type} err (db : Database.t RepoData) :
  Stderr.isTTY err = false \/ (Stderr.width err <= 0)%Z ->
  stderr_writes (fst (runSourceCheck err db)) = 0
  /\ forall (this : ActionLogger.t) p,
       Process.stderr (performAll this (fst (runSourceCheck err db)) p) =
       Process.stderr p.
Proof.
  intros Hno.
  assert (showProgress err = false) as Hsp.
  { unfold showProgress. destruct Hno as [->|Hw]; [reflexivity|].
    apply andb_false_iff. right. now apply Z.ltb_ge. }
  assert (stderr_writes (fst (runSourceCheck err db)) = 0) as Hzero.
  { rewrite stderr_writes_run, Hsp. now destruct loadMasterTags. }
  split; [exact Hzero|]. intros this p. now apply stderr_perform_silent.
Qed.

(** X6.  With the progress display on and the canonical tags loaded, a run
    writes to the standard error three times for each tag it examines (the
    cleared line, the progress text, the return to the line's beginning)
    and once more, to clear the line, before each finding. *)
Theorem progress_writes_per_tag {RepoData : Type} err (db : Database.t RepoData) t :
  Stderr.isTTY err = true ->
  (0 < Stderr.width err)%Z ->
  loadMasterTags = Some t ->
  stderr_writes (fst (runSourceCheck err db)) =
  3 * list_sum (map entryTags (Database.data db))
  + length (findings (fst (runSourceCheck err db))).
Proof.
  intros Htty Hwidth Hload. rewrite stderr_writes_run, Hload.
  unfold showProgress. rewrite Htty. apply Z.ltb_lt in Hwidth. now rewrite Hwidth.
Qed.

Lemma length_flat_map_le {A B : Type} (f : A -> list B) (l : list A) :
  (forall a, length (f a) <= 1) -> length (flat_map f l) <= length l.
Proof.
  intros Hf. induction l as [|a l IH]; simpl; [lia|].
  rewrite length_app. specialize (Hf a). lia.
Qed.

(** X7.  A run has at most one finding for each tag it examines: the
    number of findings is bounded by the number of tags of the namespaces
    other than [rows] (by key). *)
Theorem at_most_one_finding_per_tag {RepoData : Type} err (db : Database.t RepoData) :
  length (findings (fst (runSourceCheck err db))) <=
  list_sum (map entryTags (Database.data db)).
Proof.
  rewrite findings_runSourceCheck. destruct loadMasterTags; [|simpl; lia].
  induction (Database.data db) as [|e data IH]; simpl; [lia|].
  rewrite length_app. unfold entryFindings at 1, entryTags at 1.
  destruct (String.eqb (fst e) "rows"); simpl; [lia|].
  pose proof (length_flat_map_le (verdict (fst e)) (NamespaceDatabase.raw (snd e))
                (verdict_length (fst e))).
  lia.
Qed.

(** X8.  Findings follow the iteration: in a run that loaded the canonical
    tags, the finding of a tag comes after the findings of the namespaces
    and tags iterated before it and before those of the tags and
    namespaces iterated after it. *)
Theorem findings_follow_iteration {RepoData : Type} err (db : Database.t RepoData)
    t before ns nsDb after earlier entry later size sizeWidth count :
  loadMasterTags = Some t ->
  Database.data db = (before ++ (ns, nsDb) :: after)%list ->
  ns <> "rows" ->
  NamespaceDatabase.raw nsDb = (earlier ++ entry :: later)%list ->
  findings (fst (runSourceCheck err db)) =
  ((flat_map entryFindings before ++ flat_map (verdict ns) earlier)
   ++ findings (checkTag err size sizeWidth ns count entry)
   ++ (flat_map (verdict ns) later ++ flat_map entryFindings after))%list.
Proof.
  intros Hload Hdata Hns Hraw. rewrite findings_checkTag.
  exact (findings_runSourceCheck_at err db t before ns nsDb after earlier entry later
           Hload Hdata Hns Hraw).
Qed.

End CheckerExtras.

(** * Further properties of the logger *)

Section LoggerExtras.
Context `{ActionUtils}.

(** X9.  Whatever threshold the logger is constructed with, and without
    any, the level error is marked: provided the failure code is not zero,
    logging a finding at level error always leaves a failure signalled. *)
Theorem error_level_always_fails (threshold : option Level) c m p :
  ExitCode_Failure <> 0%Z ->
  Flags_get (ActionLogger.setFailed (ActionLogger.new threshold)) error = true
  /\ failing (ActionLogger.log (ActionLogger.new threshold) error c m p).
Proof.
  intros Hcode.
  assert (Flags_get (ActionLogger.setFailed (ActionLogger.new threshold)) error = true)
    as Hmark by (destruct threshold as [[]|]; reflexivity).
  split; [exact Hmark|]. exists ExitCode_Failure. split; [|exact Hcode].
  now rewrite exitCode_log, Hmark.
Qed.

(** X10.  The logger never takes a failure back: provided the failure code
    is not zero, a process that signals a failure still does after any
    sequence of events is carried out with any logger of GitHub Actions. *)
Theorem failure_signal_is_sticky (this : ActionLogger.t) out p :
  ExitCode_Failure <> 0%Z ->
  failing p ->
  failing (performAll this out p).
Proof.
  intros Hcode Hfail. unfold failing. rewrite exitCode_performAll.
  destruct (existsb _ (findings out)); [|exact Hfail].
  exists ExitCode_Failure. auto.
Qed.

Lemma perform_frame (this : ActionLogger.t) e p :
  Process.cwd (perform this e p) = Process.cwd p
  /\ Process.dirs (perform this e p) = Process.dirs p
  /\ Process.files (perform this e p) = Process.files p
  /\ Process.faults (perform this e p) = Process.faults p
  /\ exists more, Process.stdout (perform this e p) = (Process.stdout p ++ more)%list.
Proof.
  destruct e as [s|s|l c m].
  - simpl. repeat split. eauto.
  - simpl. repeat split. exists []. now rewrite app_nil_r.
  - rewrite perform_logger_call. unfold ActionLogger.log.
    destruct (Flags_get (ActionLogger.setFailed this) l); simpl; repeat split; eauto.
Qed.

(** X11.  Carrying out the events of a check with the logger of GitHub
    Actions touches neither the working directory nor the file system: the
    working directory, the directories, the files and the pending file
    failures are as before, and what was printed before is still there, in
    front of what the check printed. *)
Theorem check_leaves_file_system_alone (this : ActionLogger.t) out :
  forall p,
    Process.cwd (performAll this out p) = Process.cwd p
    /\ Process.dirs (performAll this out p) = Process.dirs p
    /\ Process.files (performAll this out p) = Process.files p
    /\ Process.faults (performAll this out p) = Process.faults p
    /\ exists more, Process.stdout (performAll this out p) = (Process.stdout p ++ more)%list.
Proof.
  induction out as [|e out IH]; intros p.
  - simpl. repeat split. exists []. now rewrite app_nil_r.
  - simpl. destruct (IH (perform this e p)) as (Hc & Hd & Hf & Hfl & more & Hout).
    destruct (perform_frame this e p) as (Hc' & Hd' & Hf' & Hfl' & more' & Hout').
    rewrite Hc, Hd, Hf, Hfl, Hout, Hout'. repeat split; auto.
    exists (more' ++ more)%list. now rewrite app_assoc.
Qed.

Lemma marks_monotone (t t' l : Level) :
  Level_le t t' ->
  Flags_get (ActionLogger.setFailed (ActionLogger.new (Some t'))) l = true ->
  Flags_get (ActionLogger.setFailed (ActionLogger.new (Some t))) l = true.
Proof.
  unfold Level_le. rewrite !setFailed_new. intros Hle Hmark.
  apply Nat.leb_le in Hmark. apply Nat.leb_le. lia.
Qed.

(** X12.  Lowering the threshold never turns a failing run into a passing
    one: provided the failure code is not zero, if the events of a run
    leave a failure signalled under a threshold, they do under every lower
    threshold, from the same process. *)
Theorem lower_threshold_fails_more (t t' : Level) out p :
  ExitCode_Failure <> 0%Z ->
  Level_le t t' ->
  failing (performAll (ActionLogger.new (Some t')) out p) ->
  failing (performAll (ActionLogger.new (Some t)) out p).
Proof.
  intros Hcode Hle. unfold failing. rewrite !exitCode_performAll.
  set (low := existsb
                (fun f => Flags_get (ActionLogger.setFailed (ActionLogger.new (Some t)))
                                    (level_of f)) (findings out)).
  set (high := existsb
                 (fun f => Flags_get (ActionLogger.setFailed (ActionLogger.new (Some t')))
                                     (level_of f)) (findings out)).
  destruct low eqn:Hlow.
  - intros _. exists ExitCode_Failure. auto.
  - destruct high eqn:Hhigh; [|auto].
    apply existsb_exists in Hhigh as (f & Hin & Hmark).
    apply (marks_monotone t t' _ Hle) in Hmark.
    assert (low = true) as Htrue by (apply existsb_exists; eauto).
    congruence.
Qed.

End LoggerExtras.

(** * Further properties of the packager *)

Section PackagerExtras.
Context `{Libraries} `{ActionUtils}.

(** X13.  A [save] that returns has left the working directory and the
    directories as they were and has changed no file other than the three
    artifacts of its kind. *)
Theorem save_touches_only_its_artifacts data type p p' key :
  save data type p = Ok tt p' ->
  key <> (Process.cwd p, "db." ++ TagType_name type ++ ".json") ->
  key <> (Process.cwd p, "db." ++ TagType_name type ++ ".json.gz") ->
  key <> (Process.cwd p, "db." ++ TagType_name type ++ ".js") ->
  Process.cwd p' = Process.cwd p
  /\ Process.dirs p' = Process.dirs p
  /\ Process.files p' !! key = Process.files p !! key.
Proof.
  intros Hs Hjson Hgz Hjs. apply save_Ok in Hs as (Hc & Hd & Hf).
  split; [exact Hc|]. split; [exact Hd|]. rewrite Hf. unfold artifact.
  rewrite !lookup_insert_ne; auto.
Qed.

Lemma insert3_idem (m : gmap (string * string) Content) k1 v1 k2 v2 k3 v3 :
  <[k1 := v1]> (<[k2 := v2]> (<[k3 := v3]>
    (<[k1 := v1]> (<[k2 := v2]> (<[k3 := v3]> m))))) =
  <[k1 := v1]> (<[k2 := v2]> (<[k3 := v3]> m)).
Proof.
  apply map_eq. intros i. rewrite !lookup_insert.
  repeat case_decide; reflexivity.
Qed.

(** X14.  Packaging a kind again overwrites its artifacts and adds nothing:
    a second [save] of the same data and kind, right after the first, leaves
    the files exactly as the first left them (the script is written anew,
    not appended to). *)
Theorem save_again_changes_nothing data type p q q' :
  save data type p = Ok tt q ->
  save data type q = Ok tt q' ->
  Process.files q' = Process.files q.
Proof.
  intros H1 H2.
  apply save_Ok in H1 as (Hc & _ & Hf1). apply save_Ok in H2 as (_ & _ & Hf2).
  rewrite Hf2, Hf1. unfold artifact. rewrite Hc. apply insert3_idem.
Qed.

(** X15.  A release that returns has rendered every kind and left, in the
    destination, the three artifacts of each of the five kinds: the JSON
    text of the rendering, its compressed bytes, and the script around
    their base64 encoding. *)
Theorem release_leaves_all_artifacts (db : Database.t RepoData) destination p p' :
  createRelease db destination p = Ok tt p' ->
  forall k, exists d,
    Database.render db k = Some d
    /\ Process.files p' !! (destination, "db." ++ TagType_name k ++ ".json") =
       Some (Text (JSON_stringify d))
    /\ Process.files p' !! (destination, "db." ++ TagType_name k ++ ".json.gz") =
       Some (Bytes (gzip (JSON_stringify d)))
    /\ Process.files p' !! (destination, "db." ++ TagType_name k ++ ".js") =
       Some (Text ("(function(){var d={c:'load_ehtagtranslation_db_"
                   ++ TagType_name k ++ "',d:'"
                   ++ base64 (gzip (JSON_stringify d)) ++ "'};" ++ pako ++ "})();")).
Proof.
  intros Hrun k. exact (createRelease_artifacts db destination p tt p' Hrun k).
Qed.

(** X16.  A release returns when every kind renders, no file operation
    fails and the working directory exists. *)
Theorem release_returns (db : Database.t RepoData) destination p :
  (forall k, is_Some (Database.render db k)) ->
  Process.faults p = [] ->
  Process.cwd p ∈ Process.dirs p ->
  exists p', createRelease db destination p = Ok tt p'.
Proof.
  intros Hrender Hf Hcwd.
  pose proof (createRelease_returns db destination p Hrender Hf Hcwd) as Hok.
  destruct (createRelease db destination p) as [[] p'|e p']; [eauto|destruct Hok].
Qed.

Lemma renderAll_throws db ks : forall data,
  (exists k, In k ks /\ Database.render db k = None) ->
  exists k, In k ks /\ Database.render db k = None
    /\ forall p, renderAll db ks data p = Throw (RenderRejected k) p.
Proof.
  induction ks as [|k0 ks IH]; intros data (k & Hin & Hnone); [destruct Hin|].
  simpl. destruct (Database.render db k0) as [d|] eqn:Hd.
  - destruct Hin as [<-|Hin]; [congruence|].
    destruct (IH (data_set data k0 d)) as (k' & Hin' & Hnone' & Hthrow); eauto.
  - exists k0. auto.
Qed.

(** X17.  Every kind is rendered before the disk is touched: when the
    rendering of some kind is rejected, the release throws that rejection
    having printed its three opening lines and nothing else; the working
    directory, the directories, the files and the pending file failures
    are as before. *)
Theorem render_failure_precedes_disk (db : Database.t RepoData) destination p k :
  Database.render db k = None ->
  exists k' p',
    createRelease db destination p = Throw (RenderRejected k') p'
    /\ Database.render db k' = None
    /\ Process.cwd p' = Process.cwd p
    /\ Process.dirs p' = Process.dirs p
    /\ Process.files p' = Process.files p
    /\ Process.faults p' = Process.faults p
    /\ Process.stdout p' =
       (Process.stdout p ++
        [out_line "Building releases...";
         out_line ("  Source: " ++ Database.repoPath db);
         out_line ("  Destination: " ++ destination)])%list.
Proof.
  intros Hnone.
  destruct (renderAll_throws db types (fun _ => None)) as (k' & _ & Hnone' & Hthrow).
  { exists k. split; [destruct k; simpl; auto 10|exact Hnone]. }
  exists k'. eexists. split.
  - unfold createRelease. do 3 (erewrite bind_Ok_eq; [|reflexivity]).
    unfold bind. rewrite Hthrow. reflexivity.
  - simpl. repeat split; auto. now rewrite <- !app_assoc.
Qed.

(** X19.  A release that throws leaves the working directory where it was
    or at the destination, never elsewhere. *)
Theorem release_error_leaves_known_directory (db : Database.t RepoData)
    destination p e p' :
  createRelease db destination p = Throw e p' ->
  Process.cwd p' = Process.cwd p \/ Process.cwd p' = destination.
Proof.
  intros Hrun. pose proof (createRelease_ends db destination p) as Hends.
  rewrite Hrun in Hends. exact Hends.
Qed.

Lemma triple_bind {A B : Type} (P : Process.t -> Prop) (m : M A) (f : A -> M B)
    (Q : A -> Process.t -> Prop) (R : B -> Process.t -> Prop)
    (E : Error -> Process.t -> Prop) :
  triple P m Q E ->
  (forall a, triple (Q a) (f a) R E) ->
  triple P (bind m f) R E.
Proof.
  intros Hm Hf p Hp. unfold bind. specialize (Hm p Hp).
  destruct (m p) as [a q|e q]; [|exact Hm]. exact (Hf a q Hm).
Qed.

Lemma triple_weaken {A : Type} (P P' : Process.t -> Prop) (m : M A)
    (Q Q' : A -> Process.t -> Prop) (E E' : Error -> Process.t -> Prop) :
  triple P' m Q' E' ->
  (forall p, P p -> P' p) ->
  (forall a p, Q' a p -> Q a p) ->
  (forall e p, E' e p -> E e p) ->
  triple P m Q E.
Proof.
  intros Hm Hpre Hpost Herr p Hp. specialize (Hm p (Hpre p Hp)).
  destruct (m p) as [a q|e q]; auto.
Qed.

Lemma triple_fault Inv E :
  steady Inv -> fatal Inv E -> triple Inv fault (fun _ => Inv) E.
Proof.
  intros [Hfl _] [Hrej _] p Hp. unfold fault.
  destruct (Process.faults p) as [|[] fl]; auto.
  apply Hrej; simpl; auto.
Qed.

(** The failure of a stream is the death of the process. *)
Lemma triple_stream_fault Inv E :
  steady Inv -> fatal Inv E -> triple Inv stream_fault (fun _ => Inv) E.
Proof.
  intros [Hfl _] [_ Hdie] p Hp. unfold stream_fault.
  destruct (Process.faults p) as [|[] fl]; auto.
Qed.

Lemma triple_modify (Inv Inv' : Process.t -> Prop) E f :
  (forall p, Inv p -> Inv' (f p)) -> triple Inv (modify f) (fun _ => Inv') E.
Proof. intros Hf p Hp. simpl. auto. Qed.

Lemma triple_log Inv E s :
  steady Inv -> triple Inv (console.log s) (fun _ => Inv) E.
Proof. intros [_ Hpr]. apply triple_modify. intros p Hp. now apply Hpr. Qed.

Lemma triple_logFile Inv E file :
  steady Inv -> fatal Inv E -> triple Inv (logFile file) (fun _ => Inv) E.
Proof.
  intros Hst Hfatal. unfold logFile.
  apply triple_bind with (Q := fun _ => Inv); [|intros size; now apply triple_log].
  unfold stat_size.
  apply triple_bind with (Q := fun _ => Inv); [now apply triple_fault|].
  intros _ p Hp.
  destruct (Process.files p !! (Process.cwd p, file)) as [[s|b]|]; try exact Hp.
  apply Hfatal; simpl; auto.
Qed.

Lemma fatal_streaming type suffix Inv E s :
  fatal Inv E -> fatal (streaming type suffix Inv s) E.
Proof.
  intros [Hrej Hdie]. split.
  - intros e p He (Hp & _). now apply Hrej.
  - intros e p (Hp & _). now apply Hdie.
Qed.

Lemma steady_streaming type suffix Inv s :
  steady Inv -> steady (streaming type suffix Inv s).
Proof.
  intros [Hfl Hpr]. split.
  - intros fl p (Hp & Hdir & Hpath). unfold streaming. simpl. auto.
  - intros o p (Hp & Hdir & Hpath). unfold streaming. simpl. auto.
Qed.

Lemma triple_write type Inv E s chunk :
  steady Inv -> fatal Inv E -> survives_save type Inv ->
  triple (streaming type ".js" Inv s) (WriteStream.write s chunk)
         (fun _ => streaming type ".js" Inv s) E.
Proof.
  intros Hst Hfatal Hsv. unfold WriteStream.write.
  apply triple_bind with (Q := fun _ => streaming type ".js" Inv s).
  - apply triple_stream_fault; [now apply steady_streaming|now apply fatal_streaming].
  - intros _ p (Hp & Hdir & Hpath). simpl. rewrite Hdir, Hpath.
    destruct (Hsv p ".js"
                (Text (match Process.files p
                               !! (Process.cwd p, "db." ++ TagType_name type ++ ".js") with
                       | Some (Text old) => old
                       | _ => EmptyString
                       end ++ chunk))) as (Hinv & Hcwd); [simpl; auto|exact Hp|].
    unfold streaming. simpl. auto.
Qed.

Lemma triple_writeFile type suffix Inv E data :
  In suffix [".json"; ".json.gz"; ".js"] ->
  steady Inv -> fatal Inv E -> survives_save type Inv ->
  triple Inv (fs.writeFile ("db." ++ TagType_name type ++ suffix) data)
         (fun _ => Inv) E.
Proof.
  intros Hin Hst Hfatal Hsv. unfold fs.writeFile.
  apply triple_bind with (Q := fun _ => Inv); [now apply triple_fault|].
  intros _. apply triple_modify. intros p Hp. now apply Hsv.
Qed.

(** Whatever survives the writes of [save] holds when [save] returns, and
    what is left of it holds when [save] does not. *)
Lemma triple_save Inv E data type :
  steady Inv -> fatal Inv E -> survives_save type Inv ->
  triple Inv (save data type) (fun _ => Inv) E.
Proof.
  intros Hst Hfatal Hsv. unfold save.
  apply triple_bind with (Q := fun _ => Inv);
    [apply triple_writeFile; simpl; auto|intros _].
  apply triple_bind with (Q := fun _ => Inv); [now apply triple_logFile|intros _].
  apply triple_bind with (Q := fun _ => Inv);
    [apply triple_writeFile; simpl; auto|intros _].
  apply triple_bind with (Q := fun _ => Inv); [now apply triple_logFile|intros _].
  apply triple_bind with (Q := streaming type ".js" Inv).
  { intros p Hp. simpl.
    destruct (Hsv p ".js" (Text EmptyString)) as (Hinv & Hcwd); [simpl; auto|exact Hp|].
    unfold streaming. simpl. auto. }
  intros jsonp.
  do 5 (apply triple_bind with (Q := fun _ => streaming type ".js" Inv jsonp);
        [now apply triple_write|intros _]).
  apply triple_bind with (Q := fun _ => Inv).
  { unfold WriteStream.end_.
    apply triple_weaken with (P' := Inv) (Q' := fun _ => Inv) (E' := E);
      [now apply triple_stream_fault|intros p (Hp & _); exact Hp|auto|auto]. }
  intros _. now apply triple_logFile.
Qed.

Lemma triple_saveAll Inv E ks data :
  steady Inv -> fatal Inv E -> (forall k, In k ks -> survives_save k Inv) ->
  triple Inv (saveAll ks data) (fun _ => Inv) E.
Proof.
  intros Hst Hfatal. induction ks as [|k ks IH]; intros Hsv; simpl.
  - intros p Hp. exact Hp.
  - destruct (data k) as [d|]; [|intros p Hp; apply Hfatal; simpl; auto].
    apply triple_bind with (Q := fun _ => Inv).
    + apply triple_save; [exact Hst|exact Hfatal|apply Hsv; simpl; auto].
    + intros _. apply IH. intros k' Hk'. apply Hsv. simpl. auto.
Qed.

Lemma steady_holds c key v : steady (holds c key v).
Proof. split; intros ? p Hp; exact Hp. Qed.

Lemma fatal_holds c key v : fatal (holds c key v) (fun _ => holds c key v).
Proof. split; intros e p; auto. Qed.

Lemma survives_save_holds c key v type :
  foreign c [type] key -> survives_save type (holds c key v).
Proof.
  intros Hforeign p suffix w Hin (Hc & Hv). unfold holds. simpl.
  repeat split; auto.
  rewrite lookup_insert_ne; [exact Hv|].
  rewrite Hc. intros Heq. symmetry in Heq. revert Heq.
  apply Hforeign; simpl; auto.
Qed.

Lemma saveAll_app ks1 ks2 data p :
  saveAll (ks1 ++ ks2) data p =
  bind (saveAll ks1 data) (fun _ => saveAll ks2 data) p.
Proof.
  revert p. induction ks1 as [|k ks1 IH]; intros p; [reflexivity|].
  simpl. destruct (data k) as [d|]; [|reflexivity].
  unfold bind. destruct (save d k p) as [u q|e q]; [|reflexivity].
  rewrite IH. reflexivity.
Qed.

(** X18.  Nothing is rolled back: when the packaging of some kinds has
    returned and the packaging of the kinds after them throws, the loop
    throws that error and the three artifacts of each kind packaged before
    are still in place, complete. *)
Theorem failed_packaging_keeps_finished_kinds ks1 ks2 data p u q e p' :
  NoDup (ks1 ++ ks2) ->
  saveAll ks1 data p = Ok u q ->
  saveAll ks2 data q = Throw e p' ->
  saveAll (ks1 ++ ks2) data p = Throw e p'
  /\ forall k, In k ks1 ->
       exists d, data k = Some d
         /\ Process.files p' !! (Process.cwd p, "db." ++ TagType_name k ++ ".json") =
            Some (Text (JSON_stringify d))
         /\ Process.files p' !! (Process.cwd p, "db." ++ TagType_name k ++ ".json.gz") =
            Some (Bytes (gzip (JSON_stringify d)))
         /\ Process.files p' !! (Process.cwd p, "db." ++ TagType_name k ++ ".js") =
            Some (Text ("(function(){var d={c:'load_ehtagtranslation_db_"
                        ++ TagType_name k ++ "',d:'"
                        ++ base64 (gzip (JSON_stringify d)) ++ "'};" ++ pako ++ "})();")).
Proof.
  intros Hnd H1 H2. split.
  { rewrite saveAll_app. unfold bind. rewrite H1. exact H2. }
  intros k Hk.
  apply NoDup_app in Hnd as (Hnd1 & Hdisj & _).
  destruct (saveAll_artifacts ks1 data p u q Hnd1 H1 k Hk) as (d & Hd & Hjson & Hgz & Hjs).
  exists d. split; [exact Hd|].
  pose proof (keeps_cwd_saveAll ks1 data p) as Hcwd. rewrite H1 in Hcwd. simpl in Hcwd.
  assert (forall suffix v,
             In suffix [".json"; ".json.gz"; ".js"] ->
             Process.files q !! artifact p k suffix = v ->
             Process.files p' !! artifact p k suffix = v) as Hkept.
  { intros suffix v Hsuffix Hv.
    assert (triple (holds (Process.cwd p) (artifact p k suffix) v) (saveAll ks2 data)
                   (fun _ => holds (Process.cwd p) (artifact p k suffix) v)
                   (fun _ => holds (Process.cwd p) (artifact p k suffix) v)) as Htriple.
    { apply triple_saveAll; [apply steady_holds|apply fatal_holds|].
      intros k' Hk'. apply survives_save_holds.
      intros k'' s' [Hsame|[]] Hs' Heq. unfold artifact in Heq.
      apply (f_equal snd) in Heq. simpl in Heq.
      apply artifact_name_inj in Heq as [Hkk _]; auto. subst k'' k'.
      apply (Hdisj k); now apply list_elem_of_In. }
    specialize (Htriple q (conj Hcwd Hv)). rewrite H2 in Htriple.
    exact (proj2 Htriple). }
  repeat split.
  - apply (Hkept ".json"); simpl; auto.
  - apply (Hkept ".json.gz"); simpl; auto.
  - apply (Hkept ".js"); simpl; auto.
Qed.

Lemma triple_renderAll Inv E db ks : forall data,
  fatal Inv E -> triple Inv (renderAll db ks data) (fun _ => Inv) E.
Proof.
  induction ks as [|k ks IH]; intros data Hfatal; simpl.
  - intros p Hp. exact Hp.
  - destruct (Database.render db k) as [d|]; [now apply IH|].
    intros p Hp. apply Hfatal; simpl; auto.
Qed.

Lemma triple_ensureDir Inv E directory :
  steady Inv -> fatal Inv E -> roaming Inv ->
  triple Inv (fs.ensureDir directory) (fun _ => Inv) E.
Proof.
  intros Hst Hfatal [_ Hds]. unfold fs.ensureDir.
  apply triple_bind with (Q := fun _ => Inv); [now apply triple_fault|].
  intros _. apply triple_modify. intros p Hp. now apply Hds.
Qed.

Lemma triple_chdir (Inv : Process.t -> Prop) E directory :
  fatal Inv E ->
  triple Inv (process.chdir directory)
         (fun _ q => exists p, Inv p /\ q = Process.set_cwd directory p) E.
Proof.
  intros Hfatal p Hp. unfold process.chdir.
  destruct (decide (directory ∈ Process.dirs p)); simpl; eauto.
  apply Hfatal; simpl; auto.
Qed.

Lemma triple_group Inv E (o : Output) :
  steady Inv -> triple Inv (modify (Process.print o)) (fun _ => Inv) E.
Proof. intros [_ Hpr]. apply triple_modify. intros p Hp. now apply Hpr. Qed.

Lemma group_as_print :
  (if isAction then action.startGroup "files" else console.log EmptyString) =
  modify (Process.print (if isAction then out_startGroup "files" else out_line EmptyString))
  /\ (if isAction then action.endGroup else console.log EmptyString) =
     modify (Process.print (if isAction then out_endGroup else out_line EmptyString)).
Proof. destruct isAction; split; reflexivity. Qed.


(** X21.  A release, whether it returns or throws, changes no file other
    than the fifteen artifacts in the destination: every other file holds
    what it held, or is still missing. *)
Theorem release_touches_only_its_artifacts (db : Database.t RepoData) destination p key :
  (forall k suffix, In suffix [".json"; ".json.gz"; ".js"] ->
                    key <> (destination, "db." ++ TagType_name k ++ suffix)) ->
  Process.files (final (createRelease db destination p)) !! key =
  Process.files p !! key.
Proof.
  intros Hforeign.
  set (v := Process.files p !! key).
  set (Inv := fun q : Process.t => Process.files q !! key = v).
  set (E := fun (_ : Error) (q : Process.t) => Inv q).
  assert (steady Inv) as Hst by (split; intros ? q Hq; exact Hq).
  assert (roaming Inv) as Hro by (split; intros ? q Hq; exact Hq).
  assert (fatal Inv E) as Hfatal by (split; intros e q; auto).
  assert (fatal (holds destination key v) E) as Hfatal'
      by (split; [intros e q _ [_ Hq]|intros e q [_ Hq]]; exact Hq).
  assert (triple Inv (createRelease db destination) (fun _ => Inv) E) as Htriple.
  { unfold createRelease. destruct group_as_print as [-> ->].
    do 3 (apply triple_bind with (Q := fun _ => Inv); [now apply triple_log|intros _]).
    apply triple_bind with (Q := fun _ => Inv); [now apply triple_renderAll|intros data].
    apply triple_bind with (Q := fun _ => Inv); [intros q Hq; exact Hq|intros old].
    apply triple_bind with (Q := fun _ => Inv); [now apply triple_ensureDir|intros _].
    apply triple_bind with (Q := fun _ => holds destination key v).
    { apply triple_weaken
        with (P' := Inv) (E' := E)
             (Q' := fun _ q => exists p0, Inv p0 /\ q = Process.set_cwd destination p0);
        [now apply triple_chdir|auto| |auto].
      intros _ q (p0 & Hp0 & ->). split; [reflexivity|exact Hp0]. }
    intros _.
    apply triple_bind with (Q := fun _ => holds destination key v);
      [apply triple_group, steady_holds|intros _].
    apply triple_bind with (Q := fun _ => holds destination key v).
    { apply triple_saveAll; [apply steady_holds|exact Hfatal'|].
      intros k _. apply survives_save_holds.
      intros k' s [<-|[]] Hs. now apply Hforeign. }
    intros _.
    apply triple_bind with (Q := fun _ => holds destination key v);
      [apply triple_group, steady_holds|intros _].
    apply triple_weaken
      with (P' := holds destination key v) (E' := E)
           (Q' := fun _ q => exists p0, holds destination key v p0
                                        /\ q = Process.set_cwd old p0);
      [now apply triple_chdir|auto| |auto].
    intros _ q (p0 & Hp0 & ->). exact (proj2 Hp0). }
  specialize (Htriple p eq_refl).
  destruct (createRelease db destination p) as [u q|e q]; exact Htriple.
Qed.

Lemma stream_fault_Ok_out p u q :
  stream_fault p = Ok u q -> Process.stdout q = Process.stdout p.
Proof.
  unfold stream_fault. destruct (Process.faults p) as [|[] fl]; intros Heq;
    inversion Heq; reflexivity.
Qed.

Lemma fault_Ok_out p u q : fault p = Ok u q -> Process.stdout q = Process.stdout p.
Proof.
  unfold fault. destruct (Process.faults p) as [|[] fl]; intros Heq;
    inversion Heq; reflexivity.
Qed.

Lemma writeFile_Ok_out file data p u q :
  fs.writeFile file data p = Ok u q -> Process.stdout q = Process.stdout p.
Proof.
  intros Heq. unfold fs.writeFile in Heq.
  apply bind_Ok_inv in Heq as (u0 & q0 & Hfault & Heq).
  apply fault_Ok_out in Hfault. apply modify_Ok in Heq. subst q. exact Hfault.
Qed.

Lemma write_Ok_out s chunk p u q :
  WriteStream.write s chunk p = Ok u q -> Process.stdout q = Process.stdout p.
Proof.
  intros Heq. unfold WriteStream.write in Heq.
  apply bind_Ok_inv in Heq as (u0 & q0 & Hfault & Heq).
  apply stream_fault_Ok_out in Hfault. apply modify_Ok in Heq. subst q. exact Hfault.
Qed.

Lemma logFile_Ok_out file content p u q :
  Process.files p !! (Process.cwd p, file) = Some content ->
  logFile file p = Ok u q ->
  Process.stdout q =
  (Process.stdout p ++
   [created file (match content with
                  | Text s => byteLength s
                  | Bytes b => length b
                  end)])%list.
Proof.
  intros Hfile Heq. unfold logFile in Heq.
  apply bind_Ok_inv in Heq as (size & q0 & Hstat & Heq).
  unfold stat_size in Hstat.
  apply bind_Ok_inv in Hstat as (u0 & q1 & Hfault & Hstat).
  pose proof (fault_Ok_out _ _ _ Hfault) as Hout.
  apply fault_Ok in Hfault as (Hc & _ & Hf).
  rewrite Hc, Hf, Hfile in Hstat.
  apply modify_Ok in Heq. subst q. simpl. unfold created.
  destruct content as [s|b]; inversion Hstat; subst; now rewrite Hout.
Qed.

(** X22.  A [save] that returns has printed exactly three lines, one after
    each artifact is complete, in the order JSON text, compressed bytes,
    script; each gives the name of the file and the size of what the file
    holds at that time: the bytes of the JSON text, the number of
    compressed bytes, the bytes of the whole script. *)
Theorem save_reports_each_artifact data type p p' :
  save data type p = Ok tt p' ->
  Process.stdout p' =
  (Process.stdout p ++
   [created ("db." ++ TagType_name type ++ ".json") (byteLength (JSON_stringify data));
    created ("db." ++ TagType_name type ++ ".json.gz")
            (length (gzip (JSON_stringify data)));
    created ("db." ++ TagType_name type ++ ".js")
            (byteLength
               ("(function(){var d={c:'load_ehtagtranslation_db_"
                ++ TagType_name type ++ "',d:'"
                ++ base64 (gzip (JSON_stringify data)) ++ "'};" ++ pako ++ "})();"))])%list.
Proof.
  intros Hs. pose proof (save_artifacts _ _ _ _ _ Hs) as (_ & _ & Hjs).
  pose proof (save_Ok _ _ _ _ _ Hs) as (Hcwd & _ & _).
  unfold save in Hs.
  apply bind_Ok_inv in Hs as (u1 & q1 & Hw1 & Hs).
  pose proof (writeFile_Ok_out _ _ _ _ _ Hw1) as Ho1.
  apply writeFile_Ok in Hw1 as (Hc1 & _ & Hf1).
  apply bind_Ok_inv in Hs as (u2 & q2 & Hl2 & Hs).
  assert (Process.files q1 !! (Process.cwd q1, "db." ++ TagType_name type ++ ".json")
          = Some (Text (JSON_stringify data))) as Hjson.
  { rewrite Hf1, Hc1. apply lookup_insert_eq. }
  pose proof (logFile_Ok_out _ _ _ _ _ Hjson Hl2) as Ho2.
  apply logFile_Ok in Hl2 as (Hc2 & _ & Hf2).
  apply bind_Ok_inv in Hs as (u3 & q3 & Hw3 & Hs).
  pose proof (writeFile_Ok_out _ _ _ _ _ Hw3) as Ho3.
  apply writeFile_Ok in Hw3 as (Hc3 & _ & Hf3).
  apply bind_Ok_inv in Hs as (u4 & q4 & Hl4 & Hs).
  assert (Process.files q3 !! (Process.cwd q3, "db." ++ TagType_name type ++ ".json.gz")
          = Some (Bytes (gzip (JSON_stringify data)))) as Hgz.
  { rewrite Hf3, Hc3. apply lookup_insert_eq. }
  pose proof (logFile_Ok_out _ _ _ _ _ Hgz Hl4) as Ho4.
  apply bind_Ok_inv in Hs as (jsonp & q5 & Hcreate & Hs).
  unfold fs.createWriteStream in Hcreate. inversion Hcreate; subst jsonp q5.
  clear Hcreate.
  apply bind_Ok_inv in Hs as (u6 & q6 & Hw6 & Hs). apply write_Ok_out in Hw6.
  apply bind_Ok_inv in Hs as (u7 & q7 & Hw7 & Hs). apply write_Ok_out in Hw7.
  apply bind_Ok_inv in Hs as (u8 & q8 & Hw8 & Hs). apply write_Ok_out in Hw8.
  apply bind_Ok_inv in Hs as (u9 & q9 & Hw9 & Hs). apply write_Ok_out in Hw9.
  apply bind_Ok_inv in Hs as (u10 & q10 & Hw10 & Hs). apply write_Ok_out in Hw10.
  apply bind_Ok_inv in Hs as (u11 & q11 & Hend & Hs).
  unfold WriteStream.end_ in Hend.
  pose proof (stream_fault_Ok_out _ _ _ Hend) as Ho11.
  pose proof (logFile_Ok _ _ _ _ Hs) as (Hc12 & _ & Hf12).
  assert (Process.files q11 !! (Process.cwd q11, "db." ++ TagType_name type ++ ".js")
          = Some (Text (script type (base64 (gzip (JSON_stringify data))) pako))) as Hscript.
  { rewrite <- Hf12. unfold artifact in Hjs. rewrite <- Hc12, Hcwd. exact Hjs. }
  pose proof (logFile_Ok_out _ _ _ _ _ Hscript Hs) as Ho12.
  rewrite Ho12, Ho11, Hw10, Hw9, Hw8, Hw7, Hw6. simpl Process.stdout.
  rewrite Ho4, Ho3, Ho2, Ho1. unfold script. simpl.
  now rewrite <- !app_assoc.
Qed.

End PackagerExtras.

(** * Properties of the badge endpoints *)

Section BadgeExtras.
Context `{Ehtag}.

Lemma toString_not_empty (n : nat) : is_empty (toString n) = false.
Proof.
  unfold toString, NilZero.string_of_uint.
  destruct (Nat.to_uint n); reflexivity.
Qed.

(** X23.  A badge made by [makeBadge] has schema version 1 and never an
    empty label or message: an empty label is replaced by no-label, an
    empty message by no-message, and the badge is an error badge exactly
    when an error was asked for or one of the two was empty. *)
Theorem makeBadge_is_never_blank (label message : string) (error : option bool) :
  Badge.schemaVersion (makeBadge label message error) = 1
  /\ is_empty (Badge.label (makeBadge label message error)) = false
  /\ is_empty (Badge.message (makeBadge label message error)) = false
  /\ Badge.label (makeBadge label message error) =
     (if is_empty label then "no-label" else label)
  /\ Badge.message (makeBadge label message error) =
     (if is_empty message then "no-message" else message)
  /\ Badge.isError (makeBadge label message error) =
     default false error || is_empty label || is_empty message.
Proof.
  unfold makeBadge. simpl.
  destruct label as [|a label], message as [|b message]; simpl;
    repeat split; auto; destruct (default false error); reflexivity.
Qed.

Lemma fold_addSize_None {RepoData : Type} (db : Database.t RepoData) names :
  fold_left (addSize db) names None = None.
Proof. induction names as [|n names IH]; [reflexivity|exact IH]. Qed.

Lemma fold_addSize_present {RepoData : Type} (db : Database.t RepoData) names :
  forall a,
    (forall name, In name names -> is_Some (data_get (Database.data db) name)) ->
    fold_left (addSize db) names (Some a) = Some (a + list_sum (map (sizeOf db) names)).
Proof.
  induction names as [|n names IH]; intros a Hall; simpl.
  - f_equal. lia.
  - destruct (Hall n) as [ns Hns]; [simpl; auto|].
    unfold sizeOf at 1. rewrite Hns, IH.
    + f_equal. lia.
    + intros name Hin. apply Hall. simpl. auto.
Qed.

Lemma fold_addSize_missing {RepoData : Type} (db : Database.t RepoData) names :
  forall a name,
    In name names -> data_get (Database.data db) name = None ->
    fold_left (addSize db) names (Some a) = None.
Proof.
  induction names as [|n names IH]; intros a name Hin Hnone; [destruct Hin|].
  simpl. destruct (data_get (Database.data db) n) as [ns|] eqn:Hn.
  - destruct Hin as [->|Hin]; [congruence|]. now apply (IH _ name).
  - apply fold_addSize_None.
Qed.

Lemma badge_of_all_records_aux {RepoData : Type} (db : Database.t RepoData) :
  ((forall name, In name NamespaceNames -> is_Some (data_get (Database.data db) name)) ->
   getBadgeAll db =
   Some {| Badge.schemaVersion := 1;
           Badge.label := "all records";
           Badge.message := toString (list_sum (map (sizeOf db) NamespaceNames));
           Badge.isError := false |})
  /\ (forall name,
        In name NamespaceNames -> data_get (Database.data db) name = None ->
        getBadgeAll db = None).
Proof.
  split.
  - intros Hall. unfold getBadgeAll. rewrite fold_addSize_present by exact Hall.
    simpl. unfold makeBadge. simpl.
    pose proof (toString_not_empty (list_sum (map (sizeOf db) NamespaceNames))) as Hne.
    unfold is_empty in Hne.
    destruct (toString (list_sum (map (sizeOf db) NamespaceNames))); [discriminate|].
    reflexivity.
  - intros name Hin Hnone. unfold getBadgeAll.
    now rewrite (fold_addSize_missing db _ 0 name Hin Hnone).
Qed.

(** X24.  The badge of all records: when every name of the array
    [NamespaceName] is a namespace of the database, the badge is labelled
    all records, shows in decimal the sum of the sizes of these namespaces
    (the meta-entry [rows] included, if it is named) and is no error
    badge; when some name is missing from the database, the endpoint
    throws. *)
Theorem badge_of_all_records {RepoData : Type} (db : Database.t RepoData) :
  ((forall name, In name NamespaceNames -> is_Some (data_get (Database.data db) name)) ->
   getBadgeAll db =
   Some {| Badge.schemaVersion := 1;
           Badge.label := "all records";
           Badge.message := toString (list_sum (map (sizeOf db) NamespaceNames));
           Badge.isError := false |})
  /\ (forall name,
        In name NamespaceNames -> data_get (Database.data db) name = None ->
        getBadgeAll db = None).
Proof. exact (badge_of_all_records_aux db). Qed.




(** X26.  The badge of a namespace: for a namespace of the database the
    badge shows the size of the namespace in decimal under the name
    asked for, and it is an error badge only for the empty name, which is
    shown as no-label; for a name that the database does not have, the
    endpoint throws. *)
Theorem badge_of_a_namespace {RepoData : Type} (db : Database.t RepoData)
    (namespace : NamespaceName) :
  (forall ns,
      data_get (Database.data db) namespace = Some ns ->
      getBadgeNs db namespace =
      Some {| Badge.schemaVersion := 1;
              Badge.label := if is_empty namespace then "no-label" else namespace;
              Badge.message := toString (NamespaceDatabase.size ns);
              Badge.isError := is_empty namespace |})
  /\ (data_get (Database.data db) namespace = None -> getBadgeNs db namespace = None).
Proof.
  unfold getBadgeNs. split.
  - intros ns Hns. rewrite Hns. unfold makeBadge. simpl.
    pose proof (toString_not_empty (NamespaceDatabase.size ns)) as Hne.
    destruct (toString (NamespaceDatabase.size ns)); [discriminate|].
    destruct namespace; reflexivity.
  - intros Hnone. now rewrite Hnone.
Qed.

Lemma substring_0_length (n : nat) : forall s,
  String.length (String.substring 0 n s) = Nat.min n (String.length s).
Proof.
  induction n as [|n IH]; intros s; destruct s as [|c s]; simpl; auto.
Qed.

Lemma substring_0_prefix (n : nat) : forall s,
  exists rest, s = String.substring 0 n s ++ rest.
Proof.
  induction n as [|n IH]; intros s; destruct s as [|c s]; simpl.
  - exists EmptyString. reflexivity.
  - exists (String c s). reflexivity.
  - exists EmptyString. reflexivity.
  - destruct (IH s) as (rest & Hrest). exists rest.
    rewrite append_cons. now rewrite <- Hrest.
Qed.

(** X27.  The badge of the database: its message is the beginning of the
    hash, eight characters of it or the whole hash when that is shorter;
    for an empty hash the badge is the error badge with no-message, for
    any other hash it is no error badge. *)
Theorem badge_of_the_hash (sha : string) :
  Badge.label (getBadge sha) = "database"
  /\ Badge.isError (getBadge sha) = is_empty sha
  /\ Badge.message (getBadge sha) =
     (if is_empty sha then "no-message" else String.substring 0 8 sha)
  /\ String.length (String.substring 0 8 sha) = Nat.min 8 (String.length sha)
  /\ exists rest, sha = String.substring 0 8 sha ++ rest.
Proof.
  split; [reflexivity|].
  assert (is_empty (String.substring 0 8 sha) = is_empty sha) as Hempty
      by (destruct sha; reflexivity).
  unfold getBadge, makeBadge. simpl Badge.isError. simpl Badge.message.
  rewrite Hempty. repeat split.
  - now destruct (is_empty sha).
  - apply substring_0_length.
  - apply substring_0_prefix.
Qed.

End BadgeExtras.

(** * The further properties at work on the examples *)

Lemma strict_check_fails_witness :
  failing (@performAll _ (@ActionLogger_Logger demoAction) (ActionLogger.new (Some warn))
             (fst (@runSourceCheck demoEhentai demoTerminal demoNumbers string
                     piped demoDb))
             demoProcess).
Proof.
  apply (@strict_check_fails_on_suspect_tags demoEhentai demoTerminal demoNumbers
           demoAction string piped demoDb ["ok"; "xy"; "moved"] demoProcess).
  - discriminate.
  - reflexivity.
  - intros (c & Hc & _). discriminate Hc.
  - exists "A", demoA, "xx", (demoLine "A" 5).
    split; [simpl; auto|]. split; [discriminate|]. split; [simpl; auto|].
    right. exists "A", "xy". split; [reflexivity|discriminate].
Defined.

Lemma no_progress_without_terminal_witness :
  stderr_writes (fst (@runSourceCheck demoEhentai demoTerminal demoNumbers string
                        piped demoDb)) = 0.
Proof.
  apply (@no_progress_without_terminal demoEhentai demoTerminal demoNumbers
           demoAction string piped demoDb).
  left. reflexivity.
Defined.

Lemma progress_writes_per_tag_witness :
  stderr_writes (fst (@runSourceCheck demoEhentai demoTerminal demoNumbers string
                        tty demoDb)) = 3 * 5 + 3.
Proof.
  apply (@progress_writes_per_tag demoEhentai demoTerminal demoNumbers string
           tty demoDb ["ok"; "xy"; "moved"]).
  - reflexivity.
  - reflexivity.
  - reflexivity.
Defined.

Lemma findings_follow_iteration_witness :
  findings (fst (@runSourceCheck demoEhentai demoTerminal demoNumbers string
                   tty demoDb)) =
  ([(info, context "zz" (demoLine "A" 4),
     "Tag is too short, you should check it manually.")]
   ++ findings (@checkTag demoEhentai demoTerminal demoNumbers tty 5 1 "A" 3
                  ("xx", demoLine "A" 5))
   ++ [(warn, context "gone" (demoLine "A" 6), "Tag not found.")])%list.
Proof.
  apply (@findings_follow_iteration demoEhentai demoTerminal demoNumbers string
           tty demoDb ["ok"; "xy"; "moved"] [("rows", demoRows)] "A" demoA []
           [("ok", demoLine "A" 3); ("zz", demoLine "A" 4)]
           ("xx", demoLine "A" 5)
           [("gone", demoLine "A" 6); ("moved", demoLine "A" 7)] 5 1 3).
  - reflexivity.
  - reflexivity.
  - discriminate.
  - reflexivity.
Defined.

Lemma error_level_always_fails_witness :
  failing (@ActionLogger.log demoAction (ActionLogger.new (Some info)) error
             (context "gone" (demoLine "A" 6)) "Tag not found." demoProcess)
  /\ failing (@ActionLogger.log demoAction (ActionLogger.new None) error
                (context "gone" (demoLine "A" 6)) "Tag not found." demoProcess).
Proof.
  split.
  - apply (@error_level_always_fails demoAction (Some info)). discriminate.
  - apply (@error_level_always_fails demoAction None). discriminate.
Defined.

Lemma failure_signal_is_sticky_witness :
  failing (@performAll _ (@ActionLogger_Logger demoAction) (ActionLogger.new None)
             (fst (@runSourceCheck demoEhentai demoTerminal demoNumbers string
                     piped demoDb))
             (Process.set_exitCode (Some 1%Z) demoProcess)).
Proof.
  apply (@failure_signal_is_sticky demoAction).
  - discriminate.
  - exists 1%Z. split; [reflexivity|discriminate].
Defined.

Lemma lower_threshold_fails_more_witness :
  failing (@performAll _ (@ActionLogger_Logger demoAction) (ActionLogger.new (Some info))
             (fst (@runSourceCheck demoEhentai demoTerminal demoNumbers string
                     piped demoDb))
             demoProcess).
Proof.
  apply (@lower_threshold_fails_more demoAction info warn).
  - discriminate.
  - unfold Level_le. simpl. lia.
  - exists 1%Z. split; [vm_compute; reflexivity|discriminate].
Defined.

Lemma save_touches_only_its_artifacts_witness :
  Process.cwd (final (@save demoLibraries "{full}" full demoProcess)) = "/repo"
  /\ Process.dirs (final (@save demoLibraries "{full}" full demoProcess)) =
     Process.dirs demoProcess
  /\ Process.files (final (@save demoLibraries "{full}" full demoProcess))
     !! ("/repo", "db.raw.json") = None.
Proof.
  apply (@save_touches_only_its_artifacts demoLibraries "{full}" full demoProcess
           (final (@save demoLibraries "{full}" full demoProcess))
           ("/repo", "db.raw.json")).
  - vm_compute. reflexivity.
  - discriminate.
  - discriminate.
  - discriminate.
Defined.

Lemma save_again_changes_nothing_witness :
  Process.files
    (final (@save demoLibraries "{full}" full
              (final (@save demoLibraries "{full}" full demoProcess)))) =
  Process.files (final (@save demoLibraries "{full}" full demoProcess)).
Proof.
  apply (@save_again_changes_nothing demoLibraries "{full}" full demoProcess).
  - vm_compute. reflexivity.
  - vm_compute. reflexivity.
Defined.

Lemma release_leaves_all_artifacts_witness :
  exists d,
    Database.render demoDb html = Some d
    /\ Process.files (final (@createRelease demoLibraries demoAction demoDb
                               "/repo/publish" demoProcess))
       !! ("/repo/publish", "db.html.json") = Some (Text d)
    /\ Process.files (final (@createRelease demoLibraries demoAction demoDb
                               "/repo/publish" demoProcess))
       !! ("/repo/publish", "db.html.json.gz") = Some (Bytes (demo_gzip d))
    /\ Process.files (final (@createRelease demoLibraries demoAction demoDb
                               "/repo/publish" demoProcess))
       !! ("/repo/publish", "db.html.js") =
       Some (Text ("(function(){var d={c:'load_ehtagtranslation_db_html',d:'"
                   ++ demo_base64 (demo_gzip d)
                   ++ "'};function inflate(b){return b}})();")).
Proof.
  apply (@release_leaves_all_artifacts demoLibraries demoAction demoDb "/repo/publish"
           demoProcess
           (final (@createRelease demoLibraries demoAction demoDb "/repo/publish"
                     demoProcess))).
  vm_compute. reflexivity.
Defined.

Lemma release_returns_witness :
  exists p',
    @createRelease demoLibraries demoAction demoDb "/repo/publish" demoProcess = Ok tt p'.
Proof.
  apply (@release_returns demoLibraries demoAction demoDb "/repo/publish" demoProcess).
  - intros k. simpl. eauto.
  - reflexivity.
  - simpl. apply elem_of_singleton. reflexivity.
Defined.

Lemma render_failure_precedes_disk_witness :
  exists k' p',
    @createRelease demoLibraries demoAction demoBrokenDb "/repo/publish" demoProcess =
    Throw (RenderRejected k') p'
    /\ Database.render demoBrokenDb k' = None
    /\ Process.cwd p' = "/repo"
    /\ Process.dirs p' = Process.dirs demoProcess
    /\ Process.files p' = ∅
    /\ Process.faults p' = []
    /\ Process.stdout p' =
       [out_line "Building releases..."; out_line "  Source: /repo";
        out_line "  Destination: /repo/publish"].
Proof.
  apply (@render_failure_precedes_disk demoLibraries demoAction demoBrokenDb
           "/repo/publish" demoProcess html).
  reflexivity.
Defined.

Lemma failed_packaging_keeps_finished_kinds_witness :
  exists p',
    @saveAll demoLibraries [full; raw] demoData demoInterrupted = Throw EIO p'
    /\ Process.files p' !! ("/repo", "db.full.js") =
       Some (Text ("(function(){var d={c:'load_ehtagtranslation_db_full',d:'"
                   ++ demo_base64 (demo_gzip "{full}")
                   ++ "'};function inflate(b){return b}})();")).
Proof.
  assert (@saveAll demoLibraries [full] demoData demoInterrupted =
          Ok tt (final (@saveAll demoLibraries [full] demoData demoInterrupted))) as H1
      by (vm_compute; reflexivity).
  assert (@saveAll demoLibraries [raw] demoData
            (final (@saveAll demoLibraries [full] demoData demoInterrupted)) =
          Throw EIO
            (final (@saveAll demoLibraries [raw] demoData
                      (final (@saveAll demoLibraries [full] demoData demoInterrupted)))))
    as H2 by (vm_compute; reflexivity).
  assert (NoDup ([full] ++ [raw])) as Hnd.
  { apply NoDup_ListNoDup. repeat constructor; simpl; intuition discriminate. }
  destruct (@failed_packaging_keeps_finished_kinds demoLibraries [full] [raw] demoData
              demoInterrupted tt _ EIO _ Hnd H1 H2) as (Hthrow & Hkept).
  eexists. split; [exact Hthrow|].
  destruct (Hkept full) as (d & Hd & _ & _ & Hjs); [simpl; auto|].
  inversion Hd; subst d. exact Hjs.
Defined.

Lemma release_error_leaves_known_directory_witness :
  Process.cwd (final (@createRelease demoLibraries demoAction demoDb "/repo/publish"
                        demoFailing)) = Process.cwd demoFailing
  \/ Process.cwd (final (@createRelease demoLibraries demoAction demoDb "/repo/publish"
                           demoFailing)) = "/repo/publish".
Proof.
  apply (@release_error_leaves_known_directory demoLibraries demoAction demoDb
           "/repo/publish" demoFailing EIO).
  vm_compute. reflexivity.
Defined.


Lemma release_touches_only_its_artifacts_witness :
  Process.files (final (@createRelease demoLibraries demoAction demoDb "/repo/publish"
                          demoProcess)) !! ("/repo/publish", "README.md") =
  Process.files demoProcess !! ("/repo/publish", "README.md").
Proof.
  apply (@release_touches_only_its_artifacts demoLibraries demoAction demoDb
           "/repo/publish" demoProcess).
  intros k suffix Hin Heq. simpl in Hin.
  destruct Hin as [<-|[<-|[<-|[]]]]; destruct k; vm_compute in Heq; discriminate Heq.
Defined.

Lemma save_reports_each_artifact_witness :
  Process.stdout (final (@save demoLibraries "{full}" full demoProcess)) =
  [created "db.full.json" 6; created "db.full.json.gz" 8; created "db.full.js" 105].
Proof.
  apply (@save_reports_each_artifact demoLibraries "{full}" full demoProcess).
  vm_compute. reflexivity.
Defined.

Lemma badge_of_all_records_witness :
  @getBadgeAll demoEhtag string demoDb =
  Some {| Badge.schemaVersion := 1; Badge.label := "all records";
          Badge.message := "6"; Badge.isError := false |}
  /\ @getBadgeAll demoEhtagMissing string demoDb = None.
Proof.
  split.
  - apply (proj1 (@badge_of_all_records demoEhtag string demoDb)).
    intros name [<-|[<-|[]]]; simpl; eauto.
  - apply (proj2 (@badge_of_all_records demoEhtagMissing string demoDb) "B").
    + simpl. auto.
    + reflexivity.
Defined.


Lemma badge_of_a_namespace_witness :
  getBadgeNs demoDb "A" =
  Some {| Badge.schemaVersion := 1; Badge.label := "A";
          Badge.message := "5"; Badge.isError := false |}
  /\ getBadgeNs demoDb "B" = None.
Proof.
  split.
  - exact (proj1 (badge_of_a_namespace demoDb "A") demoA eq_refl).
  - apply (proj2 (badge_of_a_namespace demoDb "B")). reflexivity.
Defined.
